(** * EdgeTune dashboard client: the [useWebSocket] hook

    A shallow embedding of [frontend/src/hooks/useWebSocket.ts]: the
    connection manager (connect / onopen / onclose / onerror, exponential
    backoff), the message router ([ws.onmessage]), the bounded history
    streams, the notification slot with its auto-clear timer, and the frame
    subscriber registry ([frameListenersRef], a JavaScript [Set]).

    The hook runs on the browser's single-threaded event loop.  The model is
    a state record holding the React state, the refs, and the part of the
    platform the hook talks to (sockets, pending timers, a clock), together
    with a total [step] function over the events the event loop can run. *)

From Stdlib Require Import String List ZArith Bool Arith Lia.
Import ListNotations.

Set Warnings "-register-all".

Open Scope string_scope.
Open Scope list_scope.
Open Scope Z_scope.

(** ** JavaScript values and built-ins used by the hook *)

Module JS.

(** The result of [JSON.parse], plus [undefined] (the value of a missing
    property).  Numbers are never inspected by the hook; integers stand for
    them.  An object is the list of its own properties, each name once
    ([JSON.parse] keeps one value per name). *)
Inductive Value : Type :=
| JUndefined
| JNull
| JBool (b : bool)
| JNum (n : Z)
| JStr (s : string)
| JArr (items : list Value)
| JObj (fields : list (string * Value)).

(** Outcome of [JSON.parse(event.data)]: a [SyntaxError] is thrown on text
    that is not JSON. *)
Inductive Parse : Type :=
| SyntaxError
| Parsed (v : Value).

Fixpoint lookup (key : string) (fields : list (string * Value)) : Value :=
  match fields with
  | [] => JUndefined
  | (k, v) :: rest => if String.eqb k key then v else lookup key rest
  end.

(** Property read [v.key] for the property names the hook uses ([type],
    [data], [frame], [status], [message], [extra]): a [TypeError] ([None])
    on [null] and [undefined], the own property of an object, [undefined]
    on every other value. *)
Definition get (v : Value) (key : string) : option Value :=
  match v with
  | JUndefined | JNull => None
  | JObj fields => Some (lookup key fields)
  | _ => Some JUndefined
  end.

(** [l.slice(start)] with one argument. *)
Definition slice {A : Type} (start : Z) (l : list A) : list A :=
  let len := Z.of_nat (length l) in
  let k := if start <? 0 then Z.max (len + start) 0 else Z.min start len in
  skipn (Z.to_nat k) l.

(** *** [Set] of function references

    Callbacks are compared by identity; an identifier stands for the
    reference.  The representation is the one of the ECMAScript
    specification: the list of entries in insertion order, where [delete]
    replaces an entry by the empty marker and [add] appends.  This is what
    makes [forEach] well defined when the set changes while it iterates. *)
Definition Ref := nat.
Bind Scope nat_scope with Ref.
Definition SetData := list (option Ref).

Definition same (cb : Ref) (e : option Ref) : bool :=
  match e with
  | Some c => Nat.eqb c cb
  | None => false
  end.

Definition has (cb : Ref) (es : SetData) : bool := existsb (same cb) es.

Definition add (cb : Ref) (es : SetData) : SetData :=
  if has cb es then es else es ++ [Some cb].

Definition delete (cb : Ref) (es : SetData) : SetData :=
  map (fun e => if same cb e then None else e) es.

(** The members, in insertion order. *)
Fixpoint elements (es : SetData) : list Ref :=
  match es with
  | [] => []
  | Some c :: rest => c :: elements rest
  | None :: rest => elements rest
  end.

End JS.

Import JS.

(** ** Constants of the hook *)

Definition MAX_HISTORY : Z := 120.
Definition MAX_DECISIONS : Z := 50.
Definition MAX_EXPLANATIONS : Z := 50.
Definition MAX_SUGGESTIONS : Z := 20.

(** ** React state of the hook *)

Record Notification : Type := mkNotification {
  n_type : Value;
  n_message : Value;
  n_extra : Value
}.

(** The eight sinks fed by the router.  A latest-value slot holds [JNull]
    when empty, as [useState(null)] does.  The state updates a handler makes
    are applied together, in the order of the calls, when the handler
    returns; a setter called with a function applies it to the previous
    value. *)
Record Sinks : Type := mkSinks {
  telemetry : Value;
  telemetryHistory : list Value;
  decisions : list Value;
  explanations : list Value;
  suggestions : list Value;
  detectionSummary : Value;
  sourceProgress : Value;
  notification : option Notification
}.

Definition setTelemetry (v : Value) (k : Sinks) : Sinks :=
  mkSinks v (telemetryHistory k) (decisions k) (explanations k) (suggestions k)
    (detectionSummary k) (sourceProgress k) (notification k).

Definition setTelemetryHistory (f : list Value -> list Value) (k : Sinks) : Sinks :=
  mkSinks (telemetry k) (f (telemetryHistory k)) (decisions k) (explanations k)
    (suggestions k) (detectionSummary k) (sourceProgress k) (notification k).

Definition setDecisions (f : list Value -> list Value) (k : Sinks) : Sinks :=
  mkSinks (telemetry k) (telemetryHistory k) (f (decisions k)) (explanations k)
    (suggestions k) (detectionSummary k) (sourceProgress k) (notification k).

Definition setExplanations (f : list Value -> list Value) (k : Sinks) : Sinks :=
  mkSinks (telemetry k) (telemetryHistory k) (decisions k) (f (explanations k))
    (suggestions k) (detectionSummary k) (sourceProgress k) (notification k).

Definition setSuggestions (f : list Value -> list Value) (k : Sinks) : Sinks :=
  mkSinks (telemetry k) (telemetryHistory k) (decisions k) (explanations k)
    (f (suggestions k)) (detectionSummary k) (sourceProgress k) (notification k).

Definition setDetectionSummary (v : Value) (k : Sinks) : Sinks :=
  mkSinks (telemetry k) (telemetryHistory k) (decisions k) (explanations k)
    (suggestions k) v (sourceProgress k) (notification k).

Definition setSourceProgress (v : Value) (k : Sinks) : Sinks :=
  mkSinks (telemetry k) (telemetryHistory k) (decisions k) (explanations k)
    (suggestions k) (detectionSummary k) v (notification k).

Definition setNotification (n : option Notification) (k : Sinks) : Sinks :=
  mkSinks (telemetry k) (telemetryHistory k) (decisions k) (explanations k)
    (suggestions k) (detectionSummary k) (sourceProgress k) n.

(** The updater passed to [setTelemetryHistory], [setDecisions],
    [setExplanations] and [setSuggestions]:
    [next = [...prev, x]; next.length > cap ? next.slice(-cap) : next]. *)
Definition bounded_append (cap : Z) (x : Value) (prev : list Value) : list Value :=
  let next := prev ++ [x] in
  if Z.of_nat (length next) >? cap then slice (- cap) next else next.

(** ** The platform: sockets and timers *)

Inductive ReadyState : Type := CONNECTING | OPEN | CLOSING | CLOSED.

Inductive TimerAction : Type :=
| ClearNotification   (* () => setNotification(null) *)
| Reconnect.          (* connect *)

(** A pending [setTimeout].  The hook discards the handle [setTimeout]
    returns; [timer_id] only lets a trace say which timer fires. *)
Record Timer : Type := mkTimer {
  timer_id : nat;
  due : Z;
  action : TimerAction
}.

(** ** The whole state *)

Record State : Type := mkState {
  connected : bool;
  sinks : Sinks;
  wsRef : option nat;               (* index into [sockets] *)
  retriesRef : nat;
  mountedRef : bool;
  frameListenersRef : SetData;
  sockets : list ReadyState;        (* every WebSocket created so far *)
  timers : list Timer;              (* pending timers, oldest first *)
  nextTimer : nat;
  now : Z;                          (* clock, in milliseconds *)
  delivered : list (Ref * Value);   (* calls cb(frame) made so far *)
  hung : bool                       (* a handler never returned *)
}.

Definition setConnected (b : bool) (s : State) : State :=
  mkState b (sinks s) (wsRef s) (retriesRef s) (mountedRef s) (frameListenersRef s)
    (sockets s) (timers s) (nextTimer s) (now s) (delivered s) (hung s).

Definition withSinks (f : Sinks -> Sinks) (s : State) : State :=
  mkState (connected s) (f (sinks s)) (wsRef s) (retriesRef s) (mountedRef s)
    (frameListenersRef s) (sockets s) (timers s) (nextTimer s) (now s)
    (delivered s) (hung s).

Definition setWsRef (w : option nat) (s : State) : State :=
  mkState (connected s) (sinks s) w (retriesRef s) (mountedRef s) (frameListenersRef s)
    (sockets s) (timers s) (nextTimer s) (now s) (delivered s) (hung s).

Definition setRetries (r : nat) (s : State) : State :=
  mkState (connected s) (sinks s) (wsRef s) r (mountedRef s) (frameListenersRef s)
    (sockets s) (timers s) (nextTimer s) (now s) (delivered s) (hung s).

Definition setMounted (b : bool) (s : State) : State :=
  mkState (connected s) (sinks s) (wsRef s) (retriesRef s) b (frameListenersRef s)
    (sockets s) (timers s) (nextTimer s) (now s) (delivered s) (hung s).

Definition setListeners (es : SetData) (s : State) : State :=
  mkState (connected s) (sinks s) (wsRef s) (retriesRef s) (mountedRef s) es
    (sockets s) (timers s) (nextTimer s) (now s) (delivered s) (hung s).

Definition setSockets (l : list ReadyState) (s : State) : State :=
  mkState (connected s) (sinks s) (wsRef s) (retriesRef s) (mountedRef s)
    (frameListenersRef s) l (timers s) (nextTimer s) (now s) (delivered s) (hung s).

Definition setTimers (l : list Timer) (s : State) : State :=
  mkState (connected s) (sinks s) (wsRef s) (retriesRef s) (mountedRef s)
    (frameListenersRef s) (sockets s) l (nextTimer s) (now s) (delivered s) (hung s).

Definition setNextTimer (n : nat) (s : State) : State :=
  mkState (connected s) (sinks s) (wsRef s) (retriesRef s) (mountedRef s)
    (frameListenersRef s) (sockets s) (timers s) n (now s) (delivered s) (hung s).

Definition setNow (t : Z) (s : State) : State :=
  mkState (connected s) (sinks s) (wsRef s) (retriesRef s) (mountedRef s)
    (frameListenersRef s) (sockets s) (timers s) (nextTimer s) t (delivered s) (hung s).

Definition setDelivered (l : list (Ref * Value)) (s : State) : State :=
  mkState (connected s) (sinks s) (wsRef s) (retriesRef s) (mountedRef s)
    (frameListenersRef s) (sockets s) (timers s) (nextTimer s) (now s) l (hung s).

Definition setHung (b : bool) (s : State) : State :=
  mkState (connected s) (sinks s) (wsRef s) (retriesRef s) (mountedRef s)
    (frameListenersRef s) (sockets s) (timers s) (nextTimer s) (now s) (delivered s) b.

Definition emptySinks : Sinks :=
  mkSinks JNull [] [] [] [] JNull JNull None.

(** The first render: [useState] and [useRef] initial values, no socket, no
    timer, clock at 0. *)
Definition init : State :=
  mkState false emptySinks None 0%nat true [] [] [] 0%nat 0 [] false.

(** [setTimeout(f, delay)] *)
Definition setTimeout (a : TimerAction) (delay : Z) (s : State) : State :=
  setNextTimer (S (nextTimer s))
    (setTimers (timers s ++ [mkTimer (nextTimer s) (now s + delay) a]) s).

Fixpoint update {A : Type} (i : nat) (x : A) (l : list A) : list A :=
  match l, i with
  | [], _ => []
  | _ :: rest, O => x :: rest
  | y :: rest, S j => y :: update j x rest
  end.

Definition readyState (ws : nat) (s : State) : option ReadyState :=
  nth_error (sockets s) ws.

(** [new WebSocket(WS_URL)] *)
Definition newWebSocket (s : State) : nat * State :=
  (length (sockets s), setSockets (sockets s ++ [CONNECTING]) s).

(** [ws.close()]: starts the closing handshake of a socket that is
    connecting or open, does nothing otherwise; the close event comes
    later, as an event of its own. *)
Definition ws_close (ws : nat) (s : State) : State :=
  match readyState ws s with
  | Some CONNECTING | Some OPEN => setSockets (update ws CLOSING (sockets s)) s
  | _ => s
  end.

(** ** Frame subscribers

    A subscriber is an arbitrary function.  What the model lets it do to the
    hook while it runs is change the subscriber set (through
    [subscribeToFrames] and the unsubscribe functions it holds) and throw.
    The hook returns [resetState] too; a subscriber that calls it while a
    frame is published is not covered: what is proved of the sinks reads
    for subscribers that do not. *)

Inductive SetOp : Type :=
| OpAdd (cb : Ref)       (* subscribeToFrames(cb) *)
| OpDelete (cb : Ref).   (* the function returned by subscribeToFrames(cb) *)

Record Reaction : Type := mkReaction {
  ops : list SetOp;
  throws : bool
}.

Definition quiet : Reaction := mkReaction [] false.

(** Behaviour of every callback: what the callback does when it is called
    with a frame, given the calls made so far. *)
Definition Behaviour : Type := Ref -> Value -> list (Ref * Value) -> Reaction.

Definition passive : Behaviour := fun _ _ _ => quiet.

Definition apply_op (es : SetData) (o : SetOp) : SetData :=
  match o with
  | OpAdd cb => add cb es
  | OpDelete cb => delete cb es
  end.

Definition apply_ops (l : list SetOp) (es : SetData) : SetData :=
  fold_left apply_op l es.

Inductive Outcome : Type := Completed | Threw | Exhausted.

(** How a block of statements ends, and the state it leaves. *)
Inductive Completion : Type :=
| Normal (s : State)
| Throw (s : State).

Definition access (v : Value) (key : string) (s : State)
  (k : Value -> Completion) : Completion :=
  match get v key with
  | Some x => k x
  | None => Throw s
  end.

Definition tag_is (ty : Value) (label : string) : bool :=
  match ty with
  | JStr t => String.eqb t label
  | _ => false
  end.

Section Hook.

Variable react : Behaviour.

(** Bound on the number of entries one [forEach] visits; a [forEach] that
    needs more is one that never returns ([Exhausted]). *)
Variable fuel : nat.

(** [set.forEach((cb) => cb(vf.frame))] from entry [i] on.  Each live entry
    is visited at most once per position; entries appended during the
    iteration are visited, entries deleted before their turn are not.  The
    argument [vf.frame] is evaluated at each call ([arg = None] when that
    read throws). *)
Fixpoint forEach_from (n : nat) (i : nat) (arg : option Value) (es : SetData)
  (log : list (Ref * Value)) : SetData * list (Ref * Value) * Outcome :=
  match nth_error es i with
  | None => (es, log, Completed)
  | Some e =>
    match n with
    | O => (es, log, Exhausted)
    | S m =>
      match e with
      | None => forEach_from m (S i) arg es log
      | Some cb =>
        match arg with
        | None => (es, log, Threw)
        | Some x =>
          let r := react cb x log in
          let es' := apply_ops (ops r) es in
          let log' := log ++ [(cb, x)] in
          if throws r then (es', log', Threw)
          else forEach_from m (S i) arg es' log'
        end
      end
    end
  end.

Definition forEach (arg : option Value) (s : State) : Completion :=
  match forEach_from fuel 0 arg (frameListenersRef s) (delivered s) with
  | (es, log, Completed) => Normal (setDelivered log (setListeners es s))
  | (es, log, Threw) => Throw (setDelivered log (setListeners es s))
  | (es, log, Exhausted) => Normal (setHung true (setDelivered log (setListeners es s)))
  end.

(** [subscribeToFrames(cb)] and the function it returns. *)
Definition subscribeToFrames (cb : Ref) (s : State) : State :=
  setListeners (add cb (frameListenersRef s)) s.

Definition unsubscribe (cb : Ref) (s : State) : State :=
  setListeners (delete cb (frameListenersRef s)) s.

(** [connect] *)
Definition connect (s : State) : State :=
  if negb (mountedRef s) then s
  else let (ws, s1) := newWebSocket s in setWsRef (Some ws) s1.

(** [ws.onopen] *)
Definition onopen (s : State) : State :=
  setRetries 0%nat (setConnected true s).

(** [Math.min(1000 * Math.pow(2, retries), 30000)].  On doubles the power
    overflows to [Infinity] from 2^1024 on and the minimum is 30000 all the
    same, as it is here on integers. *)
Definition reconnect_delay (retries : nat) : Z :=
  Z.min (1000 * 2 ^ Z.of_nat retries) 30000.

(** [ws.onclose] *)
Definition onclose (s : State) : State :=
  let s1 := setConnected false s in
  if negb (mountedRef s1) then s1
  else
    let delay := reconnect_delay (retriesRef s1) in
    let s2 := setRetries (S (retriesRef s1)) s1 in
    setTimeout Reconnect delay s2.

(** [ws.onerror] of socket [ws] *)
Definition onerror (ws : nat) (s : State) : State := ws_close ws s.

(** The [try] block of [ws.onmessage]. *)
Definition onmessage_try (frame : Parse) (s : State) : Completion :=
  match frame with
  | SyntaxError => Throw s
  | Parsed msg =>
    access msg "type" s (fun ty =>
    if tag_is ty "telemetry" then
      access msg "data" s (fun snap =>
      Normal (withSinks (fun k =>
        setTelemetryHistory (bounded_append MAX_HISTORY snap) (setTelemetry snap k)) s))
    else if tag_is ty "autopilot_decision" then
      access msg "data" s (fun d =>
      Normal (withSinks (setDecisions (bounded_append MAX_DECISIONS d)) s))
    else if tag_is ty "llm_explanation" then
      access msg "data" s (fun e =>
      Normal (withSinks (setExplanations (bounded_append MAX_EXPLANATIONS e)) s))
    else if tag_is ty "video_frame" then
      access msg "data" s (fun vf => forEach (get vf "frame") s)
    else if tag_is ty "advisor_suggestion" then
      access msg "data" s (fun sg =>
      Normal (withSinks (setSuggestions (bounded_append MAX_SUGGESTIONS sg)) s))
    else if tag_is ty "detection_summary" then
      access msg "data" s (fun d => Normal (withSinks (setDetectionSummary d) s))
    else if tag_is ty "source_progress" then
      access msg "data" s (fun d => Normal (withSinks (setSourceProgress d) s))
    else if tag_is ty "status" then
      access msg "data" s (fun statusData =>
      access statusData "status" s (fun st =>
      access statusData "message" s (fun m =>
      access statusData "extra" s (fun x =>
      Normal (setTimeout ClearNotification 5000
        (withSinks (setNotification (Some (mkNotification st m x))) s))))))
    else Normal s)
  end.

(** [ws.onmessage]: the [catch] swallows whatever the block throws. *)
Definition onmessage (frame : Parse) (s : State) : State :=
  match onmessage_try frame s with
  | Normal s' => s'
  | Throw s' => s'
  end.

(** The effect of [useEffect] and its cleanup. *)
Definition mount (s : State) : State := connect (setMounted true s).

Definition unmount (s : State) : State :=
  let s1 := setMounted false s in
  match wsRef s1 with
  | Some ws => ws_close ws s1
  | None => s1
  end.

(** [resetState] *)
Definition resetState (s : State) : State :=
  withSinks (fun k =>
    setNotification None (setSourceProgress JNull (setDetectionSummary JNull
      (setSuggestions (fun _ => []) (setExplanations (fun _ => [])
        (setDecisions (fun _ => []) (setTelemetryHistory (fun _ => [])
          (setTelemetry JNull k)))))))) s.

(** ** The event loop *)

Inductive Event : Type :=
| Mount
| Unmount
| WsOpen (ws : nat)                   (* handshake of socket ws succeeded *)
| WsMessage (ws : nat) (frame : Parse)
| WsError (ws : nat)
| WsClose (ws : nat)                  (* socket ws is closed, for any cause *)
| Elapse (dt : Z)                     (* dt milliseconds pass *)
| TimerFire (id : nat)                (* the loop runs a timer that is due *)
| Reset
| Subscribe (cb : Ref)
| Unsubscribe (cb : Ref).

Definition run_timer (a : TimerAction) (s : State) : State :=
  match a with
  | ClearNotification => withSinks (setNotification None) s
  | Reconnect => connect s
  end.

Definition find_timer (id : nat) (s : State) : option Timer :=
  find (fun t => Nat.eqb (timer_id t) id) (timers s).

Definition remove_timer (id : nat) (s : State) : State :=
  setTimers (filter (fun t => negb (Nat.eqb (timer_id t) id)) (timers s)) s.

(** One turn of the event loop.  The platform delivers an event only when it
    can occur: a socket opens once, while connecting; receives messages
    while open; closes once; a timer runs once, not before it is due.  An
    event that cannot occur leaves the state as it is, and so does every
    event after a handler that never returns. *)
Definition step (s : State) (e : Event) : State :=
  if hung s then s
  else
    match e with
    | Mount => mount s
    | Unmount => unmount s
    | WsOpen ws =>
      match readyState ws s with
      | Some CONNECTING => onopen (setSockets (update ws OPEN (sockets s)) s)
      | _ => s
      end
    | WsMessage ws frame =>
      match readyState ws s with
      | Some OPEN => onmessage frame s
      | _ => s
      end
    | WsError ws =>
      match readyState ws s with
      | Some CLOSED | None => s
      | Some _ => onerror ws s
      end
    | WsClose ws =>
      match readyState ws s with
      | Some CLOSED | None => s
      | Some _ => onclose (setSockets (update ws CLOSED (sockets s)) s)
      end
    | Elapse dt => if 0 <=? dt then setNow (now s + dt) s else s
    | TimerFire id =>
      match find_timer id s with
      | Some t =>
        if due t <=? now s then run_timer (action t) (remove_timer id s) else s
      | None => s
      end
    | Reset => resetState s
    | Subscribe cb => subscribeToFrames cb s
    | Unsubscribe cb => unsubscribe cb s
    end.

Definition run (s : State) (evs : list Event) : State := fold_left step evs s.

End Hook.

(** ** Vocabulary of the properties *)

(** The last [n] elements of a list, in order. *)
Definition last_n {A : Type} (n : nat) (l : list A) : list A :=
  skipn (length l - n) l.

(** The four bounded streams, with the envelope type that feeds each and its
    capacity. *)
Inductive Stream : Type :=
| TelemetryStream
| DecisionStream
| ExplanationStream
| SuggestionStream.

Definition tag (k : Stream) : string :=
  match k with
  | TelemetryStream => "telemetry"
  | DecisionStream => "autopilot_decision"
  | ExplanationStream => "llm_explanation"
  | SuggestionStream => "advisor_suggestion"
  end.

Definition capacity (k : Stream) : Z :=
  match k with
  | TelemetryStream => MAX_HISTORY
  | DecisionStream => MAX_DECISIONS
  | ExplanationStream => MAX_EXPLANATIONS
  | SuggestionStream => MAX_SUGGESTIONS
  end.

Definition contents (k : Stream) (s : State) : list Value :=
  match k with
  | TelemetryStream => telemetryHistory (sinks s)
  | DecisionStream => decisions (sinks s)
  | ExplanationStream => explanations (sinks s)
  | SuggestionStream => suggestions (sinks s)
  end.

(** The envelope [{ type: ty, data: d }]. *)
Definition envelope (ty : string) (d : Value) : Parse :=
  Parsed (JObj [("type", JStr ty); ("data", d)]).

(** The record a frame appends to stream [k], if it is an envelope of the
    stream's type. *)
Definition record_of (k : Stream) (frame : Parse) : option Value :=
  match frame with
  | SyntaxError => None
  | Parsed msg =>
    match get msg "type", get msg "data" with
    | Some ty, Some d => if tag_is ty (tag k) then Some d else None
    | _, _ => None
    end
  end.

Fixpoint records_of (k : Stream) (frames : list Parse) : list Value :=
  match frames with
  | [] => []
  | f :: rest =>
    match record_of k f with
    | Some d => d :: records_of k rest
    | None => records_of k rest
    end
  end.

(** The type tags the router has a case for. *)
Definition recognized : list string :=
  ["telemetry"; "autopilot_decision"; "llm_explanation"; "video_frame";
   "advisor_suggestion"; "detection_summary"; "source_progress"; "status"].

(** The calls made to callback [cb] among the calls [log]. *)
Definition calls_to (cb : Ref) (log : list (Ref * Value)) : list (Ref * Value) :=
  filter (fun c => Nat.eqb (fst c) cb) log.

Definition adds (cb : Ref) (r : Reaction) : bool :=
  existsb (fun o => match o with OpAdd c => Nat.eqb c cb | OpDelete _ => false end) (ops r).

Definition deletes (cb : Ref) (r : Reaction) : bool :=
  existsb (fun o => match o with OpDelete c => Nat.eqb c cb | OpAdd _ => false end) (ops r).

Definition is_reconnect (t : Timer) : bool :=
  match action t with
  | Reconnect => true
  | ClearNotification => false
  end.

Definition pending_reconnects (s : State) : list Timer :=
  filter is_reconnect (timers s).

Definition is_mount (e : Event) : bool :=
  match e with
  | Mount => true
  | _ => false
  end.

(** A socket on which the transport is still up or coming up. *)
Definition live (ws : nat) (s : State) : bool :=
  match readyState ws s with
  | Some CONNECTING | Some OPEN => true
  | _ => false
  end.

(** A frame for which the router has no case to run: text that is not
    JSON, JSON that is not an object with a string [type], or an envelope
    whose [type] is not a recognized one. *)
Definition discarded (frame : Parse) : bool :=
  match frame with
  | SyntaxError => true
  | Parsed msg =>
    match get msg "type" with
    | Some (JStr t) => negb (existsb (String.eqb t) recognized)
    | _ => true
    end
  end.

(** The envelope that carries frame [x] to the subscribers. *)
Definition video_frame (x : Value) : Parse :=
  envelope "video_frame" (JObj [("frame", x)]).

Definition is_subscribe (cb : Ref) (e : Event) : bool :=
  match e with
  | Subscribe c => Nat.eqb c cb
  | _ => false
  end.

Definition is_null (v : Value) : bool :=
  match v with
  | JNull => true
  | _ => false
  end.

(** The event is not a telemetry envelope whose [data] is [null]. *)
Definition telemetry_present (e : Event) : bool :=
  match e with
  | WsMessage _ frame =>
    match record_of TelemetryStream frame with
    | Some d => negb (is_null d)
    | None => true
    end
  | _ => true
  end.

(** A behaviour in which callback [c] unsubscribes callback [target] each
    time it is called, and no callback does anything else. *)
Definition unsubscriber (c target : Ref) : Behaviour :=
  fun cb _ _ => if Nat.eqb cb c then mkReaction [OpDelete target] false else quiet.

(** A behaviour in which callback [c] throws each time it is called, and
    no callback does anything else. *)
Definition thrower (c : Ref) : Behaviour :=
  fun cb _ _ => if Nat.eqb cb c then mkReaction [] true else quiet.

(** A behaviour in which callback [c] unsubscribes callback [target] and
    subscribes it again each time it is called. *)
Definition resubscriber (c target : Ref) : Behaviour :=
  fun cb _ _ =>
    if Nat.eqb cb c then mkReaction [OpDelete target; OpAdd target] false else quiet.

(** Everything the state holds besides the sinks. *)
Definition outside_sinks (s : State) :=
  (connected s, wsRef s, retriesRef s, mountedRef s, frameListenersRef s,
   sockets s, timers s, nextTimer s, now s, delivered s, hung s).

Section Scenarios.

Variable react : Behaviour.
Variable fuel : nat.

(** [n] consecutive failed connections: the current socket closes, the
    reconnection timer that the close scheduled becomes due and runs.
    Returns the delays of the timers, in order, and the final state. *)
Fixpoint failures (n : nat) (s : State) : list Z * State :=
  match n with
  | O => ([], s)
  | S m =>
    match wsRef s with
    | None => ([], s)
    | Some ws =>
      let s1 := step react fuel s (WsClose ws) in
      match find_timer (nextTimer s) s1 with
      | None => ([], s1)
      | Some t =>
        let d := due t - now s1 in
        let s2 := run react fuel s1 [Elapse d; TimerFire (timer_id t)] in
        let (ds, s3) := failures m s2 in
        (d :: ds, s3)
      end
    end
  end.

(** An event of a disconnect / reconnect cycle in state [s]: a socket
    event other than a message, time passing, the reconnection timer. *)
Definition reconnection_event (s : State) (e : Event) : bool :=
  match e with
  | WsOpen _ | WsError _ | WsClose _ | Elapse _ => true
  | TimerFire id =>
    match find_timer id s with
    | Some t => is_reconnect t
    | None => true
    end
  | _ => false
  end.

Fixpoint reconnection_only (s : State) (evs : list Event) : bool :=
  match evs with
  | [] => true
  | e :: rest => reconnection_event s e && reconnection_only (step react fuel s e) rest
  end.

(** A successful handshake on the current socket. *)
Definition opens (s : State) : State :=
  match wsRef s with
  | Some ws => step react fuel s (WsOpen ws)
  | None => s
  end.

End Scenarios.

(** ** Further vocabulary of the router and the connection *)

(** The [data] of a frame that is an envelope of type [label]. *)
Definition data_of (label : string) (frame : Parse) : option Value :=
  match frame with
  | SyntaxError => None
  | Parsed msg =>
    match get msg "type", get msg "data" with
    | Some ty, Some d => if tag_is ty label then Some d else None
    | _, _ => None
    end
  end.

Fixpoint datas_of (label : string) (frames : list Parse) : list Value :=
  match frames with
  | [] => []
  | f :: rest =>
    match data_of label f with
    | Some d => d :: datas_of label rest
    | None => datas_of label rest
    end
  end.

(** The three latest-value slots, with the envelope type that feeds each. *)
Inductive Slot : Type :=
| TelemetrySlot
| DetectionSlot
| ProgressSlot.

Definition slot_tag (sl : Slot) : string :=
  match sl with
  | TelemetrySlot => "telemetry"
  | DetectionSlot => "detection_summary"
  | ProgressSlot => "source_progress"
  end.

Definition slot_value (sl : Slot) (s : State) : Value :=
  match sl with
  | TelemetrySlot => telemetry (sinks s)
  | DetectionSlot => detectionSummary (sinks s)
  | ProgressSlot => sourceProgress (sinks s)
  end.

(** The frame is an envelope of the given type. *)
Definition has_tag (label : string) (frame : Parse) : bool :=
  match frame with
  | SyntaxError => false
  | Parsed msg =>
    match get msg "type" with
    | Some ty => tag_is ty label
    | None => false
    end
  end.

(** [null] or [undefined]: the values on which a property read throws. *)
Definition nullish (v : Value) : bool :=
  match v with
  | JUndefined | JNull => true
  | _ => false
  end.

(** How long after it is set a timer of each kind is due at the latest. *)
Definition horizon (a : TimerAction) : Z :=
  match a with
  | Reconnect => 30000
  | ClearNotification => 5000
  end.

Definition is_clear (t : Timer) : bool :=
  match action t with
  | ClearNotification => true
  | Reconnect => false
  end.

(** The event posts no notification and empties none: it is neither a
    status envelope nor a reset. *)
Definition keeps_notification (e : Event) : bool :=
  match e with
  | Reset => false
  | WsMessage _ frame => negb (has_tag "status" frame)
  | _ => true
  end.

Definition not_closed (st : ReadyState) : bool :=
  match st with
  | CLOSED => false
  | _ => true
  end.

(** The connections in progress or to come: the sockets that have not
    reported their close, and the reconnections that are scheduled. *)
Definition open_ends (s : State) : nat :=
  (length (filter not_closed (sockets s)) + length (pending_reconnects s))%nat.

(** * The video feed component

    [frontend/src/components/video-feed.tsx]: the effect that subscribes to
    the frames of the hook and draws them on a canvas.  The callback keeps
    the newest frame in [latest]; [render] decodes one frame at a time in
    an [Image], whose load or error event comes later. *)

Module VideoFeed.

Record Feed : Type := mkFeed {
  latest : option string;       (* let latest: string | null *)
  rendering : bool;
  activated : bool;
  subscribed : bool;            (* the callback is in the subscriber set *)
  loading : list string;        (* sources of the images being decoded *)
  canvas : list string;         (* sources drawn so far, oldest first *)
  hasFrame : bool
}.

(** The effect has run: the three variables have their initial values and
    the callback is subscribed. *)
Definition start : Feed := mkFeed None false false true [] [] false.

(** A value of [latest] that passes the test [if (latest)]: neither
    [null] nor the empty string. *)
Definition truthy (l : option string) : bool :=
  match l with
  | Some f => negb (String.eqb f "")
  | None => false
  end.

(** [render] *)
Definition render (f : Feed) : Feed :=
  if negb (truthy (latest f)) || rendering f then f
  else
    match latest f with
    | Some src =>
      mkFeed None true (activated f) (subscribed f) (loading f ++ [src])
        (canvas f) (hasFrame f)
    | None => f
    end.

(** The callback given to [subscribeToFrames]. *)
Definition onframe (frame : string) (f : Feed) : Feed :=
  render (mkFeed (Some frame) (rendering f) (activated f) (subscribed f)
            (loading f) (canvas f) (hasFrame f)).

(** [img.onload] of the image with source [src] *)
Definition onload (src : string) (f : Feed) : Feed :=
  let drawn := canvas f ++ [src] in
  let f1 :=
    if activated f
    then mkFeed (latest f) false true (subscribed f) (loading f) drawn (hasFrame f)
    else mkFeed (latest f) false true (subscribed f) (loading f) drawn true in
  if truthy (latest f1) then render f1 else f1.

(** [img.onerror] *)
Definition onerror (f : Feed) : Feed :=
  mkFeed (latest f) false (activated f) (subscribed f) (loading f) (canvas f)
    (hasFrame f).

(** The cleanup of the effect: [unsub(); activated = false]. *)
Definition cleanup (f : Feed) : Feed :=
  mkFeed (latest f) (rendering f) false false (loading f) (canvas f) (hasFrame f).

Fixpoint remove_nth {A : Type} (i : nat) (l : list A) : list A :=
  match l, i with
  | [], _ => []
  | _ :: rest, O => rest
  | x :: rest, S j => x :: remove_nth j rest
  end.

Definition setLoading (l : list string) (f : Feed) : Feed :=
  mkFeed (latest f) (rendering f) (activated f) (subscribed f) l (canvas f)
    (hasFrame f).

Inductive Event : Type :=
| Frame (frame : string)   (* the hook publishes a frame *)
| Loaded (i : nat)         (* the i-th image being decoded is ready *)
| Failed (i : nat)         (* the i-th image being decoded is refused *)
| Cleanup.

Definition step (f : Feed) (e : Event) : Feed :=
  match e with
  | Frame x => if subscribed f then onframe x f else f
  | Loaded i =>
    match nth_error (loading f) i with
    | Some src => onload src (setLoading (remove_nth i (loading f)) f)
    | None => f
    end
  | Failed i =>
    match nth_error (loading f) i with
    | Some _ => onerror (setLoading (remove_nth i (loading f)) f)
    | None => f
    end
  | Cleanup => cleanup f
  end.

Definition run (f : Feed) (evs : list Event) : Feed := fold_left step evs f.

(** The frames published, in order. *)
Fixpoint received (evs : list Event) : list string :=
  match evs with
  | [] => []
  | Frame x :: rest => x :: received rest
  | _ :: rest => received rest
  end.

(** The event is a frame that is not empty, or an image that is ready. *)
Definition smooth (e : Event) : bool :=
  match e with
  | Frame x => negb (String.eqb x "")
  | Loaded _ => true
  | _ => false
  end.

(** [a] is [b] with some elements left out. *)
Fixpoint subseq (a b : list string) : Prop :=
  match b with
  | [] => a = []
  | y :: b' =>
    subseq a b' \/
    match a with
    | [] => True
    | x :: a' => x = y /\ subseq a' b'
    end
  end.

(** The frames drawn, being decoded and waiting, oldest first. *)
Definition pipeline (f : Feed) : list string :=
  canvas f ++ loading f ++
  match latest f with
  | Some x => [x]
  | None => []
  end.

(** The newest element of a list that grows at its end. *)
Definition newest (l : list string) : option string :=
  match rev l with
  | x :: _ => Some x
  | [] => None
  end.

(** Nothing waits while no image is being decoded, and an empty frame never
    waits. *)
Definition nothing_waits (f : Feed) : Prop :=
  subscribed f = true /\
  (rendering f = false -> latest f = None) /\
  (latest f = Some "" -> False).

(** At most one image is being decoded, and [rendering] says whether one
    is. *)
Definition one_decode (f : Feed) : Prop :=
  (loading f = [] /\ rendering f = false) \/
  (exists src, loading f = [src] /\ rendering f = true).

End VideoFeed.

(** * The dashboard page

    Two effects of the page that uses the hook: the one that keeps the
    history of detection totals for the timeline, and the one that shows a
    toast when a decision arrives. *)

Module Dashboard.

(** The test [if (v)] on a value. *)
Definition truthy (v : Value) : bool :=
  match v with
  | JUndefined | JNull => false
  | JBool b => b
  | JNum n => negb (n =? 0)
  | JStr s => negb (String.eqb s "")
  | JArr _ | JObj _ => true
  end.

(** An entry of [detectionHistory]: [{ total, timestamp }]. *)
Record Sample : Type := mkSample {
  total : Value;
  timestamp : Z
}.

(** The effect on [ws.detectionSummary], run at time [Date.now() = time]:
    [detectionHistory.current =
       [...detectionHistory.current.slice(-59), { total, timestamp }]]
    when there is a summary.  Reading [total] cannot throw on a value that
    passed the test. *)
Definition detection_effect (summary : Value) (time : Z) (history : list Sample)
  : list Sample :=
  if truthy summary then
    match get summary "total" with
    | Some t => slice (- 59) history ++ [mkSample t time]
    | None => history
    end
  else history.

(** The entries that a sequence of runs of the effect adds. *)
Fixpoint samples_of (runs : list (Value * Z)) : list Sample :=
  match runs with
  | [] => []
  | (summary, time) :: rest =>
    if truthy summary then
      match get summary "total" with
      | Some t => mkSample t time :: samples_of rest
      | None => samples_of rest
      end
    else samples_of rest
  end.

(** The toast of the last decision. *)
Record Toast : Type := mkToast {
  decisionToast : option string;
  lastDecisionCount : nat;
  toastTimer : bool        (* the 4 second timer is pending *)
}.

Definition noToast : Toast := mkToast None 0 false.

(** The cleanup of the effect: [clearTimeout(timer)]. *)
Definition cleanup (t : Toast) : Toast :=
  mkToast (decisionToast t) (lastDecisionCount t) false.

(** The timer runs: [setDecisionToast(null)]. *)
Definition timeout (t : Toast) : Toast :=
  if toastTimer t then mkToast None (lastDecisionCount t) false else t.

Section Effect.

(** The text a template literal makes of a value. *)
Variable text_of : Value -> string.

(** The effect on [ws.decisions] runs again: React first runs the cleanup
    the previous run returned, then the effect.  [None] when the effect
    throws (reading [action] of [null] or [undefined]). *)
Definition decision_effect (ds : list Value) (t : Toast) : option Toast :=
  let t1 := cleanup t in
  if (lastDecisionCount t1 <? length ds)%nat then
    match get (last ds JUndefined) "action" with
    | Some a => Some (mkToast (Some ("⚡ " ++ text_of a)%string) (length ds) true)
    | None => None
    end
  else Some t1.

End Effect.

End Dashboard.

(** ** Invariants used in the proofs *)

(** Timer identifiers are handed out in increasing order. *)
Definition timers_fresh (s : State) : Prop :=
  Forall (fun t => (timer_id t < nextTimer s)%nat) (timers s).

(** A mounted client whose current socket is connecting or open. *)
Definition connection_up (s : State) : Prop :=
  hung s = false /\ mountedRef s = true /\ timers_fresh s /\
  exists ws, wsRef s = Some ws /\ live ws s = true.

(** The slot is the last element of the history, [null] when there is none;
    the history holds no [null] when no envelope carried one. *)
Definition slot_tracks (s : State) : Prop :=
  telemetry (sinks s) = last (telemetryHistory (sinks s)) JNull.

Definition no_null (s : State) : Prop :=
  Forall (fun v => is_null v = false) (telemetryHistory (sinks s)).

(** Callback [cb] has at most one live entry. *)
Definition unique (cb : Ref) (es : SetData) : Prop :=
  forall p q, nth_error es p = Some (Some cb) -> nth_error es q = Some (Some cb) -> p = q.

(** Every pending timer is due within the horizon of its kind. *)
Definition timers_soon (s : State) : Prop :=
  Forall (fun t => due t <= now s + horizon (action t)) (timers s).

(** No pending auto-clear timer is due yet at time [limit]. *)
Definition clear_after (limit : Z) (s : State) : Prop :=
  Forall (fun t => is_clear t = true -> limit < due t) (timers s).

(** The state of a client that was mounted once: every socket but the
    newest has reported its close, [wsRef] is the newest, a reconnection is
    pending only when the newest socket is closed (and then exactly one
    while the client is mounted), and the connected flag follows the newest
    socket. *)
Definition one_line (s : State) : Prop :=
  exists n st,
    sockets s = repeat CLOSED n ++ [st] /\
    wsRef s = Some n /\
    timers_fresh s /\
    NoDup (map timer_id (timers s)) /\
    match st with
    | CLOSED =>
      connected s = false /\
      if mountedRef s then length (pending_reconnects s) = 1%nat
      else (length (pending_reconnects s) <= 1)%nat
    | CONNECTING => connected s = false /\ pending_reconnects s = []
    | OPEN => connected s = true /\ pending_reconnects s = []
    | CLOSING => pending_reconnects s = []
    end.

(** * Properties *)

(** ** Lists *)

Lemma last_n_all {A : Type} (n : nat) (l : list A) :
  (length l <= n)%nat -> last_n n l = l.
Proof.
  intros H. unfold last_n.
  replace (length l - n)%nat with 0%nat by lia. reflexivity.
Qed.

Lemma last_n_length {A : Type} (n : nat) (l : list A) :
  length (last_n n l) = Nat.min n (length l).
Proof. unfold last_n. rewrite length_skipn. lia. Qed.

Lemma last_n_app {A : Type} (n : nat) (a b : list A) :
  (n <= length b)%nat -> last_n n (a ++ b) = last_n n b.
Proof.
  intros H. unfold last_n. rewrite length_app, skipn_app.
  replace (length a + length b - n - length a)%nat with (length b - n)%nat by lia.
  rewrite skipn_all2 by lia. reflexivity.
Qed.

Lemma last_n_app_short {A : Type} (n : nat) (a b : list A) :
  (length b <= n)%nat -> last_n n (a ++ b) = last_n (n - length b) a ++ b.
Proof.
  intros H. unfold last_n. rewrite length_app, skipn_app.
  replace (length a + length b - n - length a)%nat with 0%nat by lia.
  replace (length a + length b - n)%nat with (length a - (n - length b))%nat by lia.
  reflexivity.
Qed.

Lemma last_n_absorb {A : Type} (n : nat) (a b : list A) :
  last_n n (last_n n a ++ b) = last_n n (a ++ b).
Proof.
  destruct (Nat.le_gt_cases n (length b)) as [H | H].
  - now rewrite !last_n_app.
  - rewrite !last_n_app_short by lia. f_equal.
    unfold last_n at 1 3. rewrite last_n_length. unfold last_n.
    rewrite skipn_skipn. f_equal. lia.
Qed.

(** ** Bounded streams *)

Lemma slice_neg {A : Type} (n : nat) (l : list A) :
  (0 < n)%nat -> slice (- Z.of_nat n) l = last_n n l.
Proof.
  intros H. unfold slice, last_n.
  destruct (- Z.of_nat n <? 0) eqn:E; [| apply Z.ltb_ge in E; lia].
  f_equal. lia.
Qed.

Lemma bounded_append_last_n (n : nat) (x : Value) (prev : list Value) :
  (0 < n)%nat ->
  bounded_append (Z.of_nat n) x prev = last_n n (prev ++ [x]).
Proof.
  intros H. unfold bounded_append.
  destruct (Z.of_nat (length (prev ++ [x])) >? Z.of_nat n) eqn:E.
  - now apply slice_neg.
  - symmetry. apply last_n_all.
    rewrite Z.gtb_ltb in E. apply Z.ltb_ge in E. lia.
Qed.

Lemma capacity_pos (k : Stream) : (0 < Z.to_nat (capacity k))%nat.
Proof. destruct k; vm_compute; lia. Qed.

Lemma capacity_nat (k : Stream) : Z.of_nat (Z.to_nat (capacity k)) = capacity k.
Proof. destruct k; reflexivity. Qed.

Lemma fold_bounded_append (k : Stream) (recs l : list Value) :
  fold_left (fun acc x => bounded_append (capacity k) x acc) recs l =
  match recs with
  | [] => l
  | _ => last_n (Z.to_nat (capacity k)) (l ++ recs)
  end.
Proof.
  revert l. induction recs as [| x recs IH]; intros l; [reflexivity |].
  cbn [fold_left]. rewrite IH.
  assert (E : bounded_append (capacity k) x l =
              last_n (Z.to_nat (capacity k)) (l ++ [x])).
  { rewrite <- (capacity_nat k) at 1.
    apply bounded_append_last_n, capacity_pos. }
  rewrite E.
  destruct recs as [| y recs]; [reflexivity |].
  rewrite last_n_absorb, <- app_assoc. reflexivity.
Qed.

(** ** The router *)

(** Case analysis on the parsed frame along the [switch] of the router. *)
Ltac on_tag t label :=
  let E := fresh "E" in
  destruct (String.eqb t label) eqn:E;
  [apply String.eqb_eq in E; subst t |].

Ltac by_tag t :=
  on_tag t "telemetry";
  [| on_tag t "autopilot_decision";
  [| on_tag t "llm_explanation";
  [| on_tag t "video_frame";
  [| on_tag t "advisor_suggestion";
  [| on_tag t "detection_summary";
  [| on_tag t "source_progress";
  [| on_tag t "status" ]]]]]]].

Section Router.

Variable react : Behaviour.
Variable fuel : nat.

Lemma forEach_sinks (arg : option Value) (s : State) :
  match forEach react fuel arg s with
  | Normal s' | Throw s' =>
    sinks s' = sinks s /\ connected s' = connected s /\ wsRef s' = wsRef s /\
    retriesRef s' = retriesRef s /\ mountedRef s' = mountedRef s /\
    sockets s' = sockets s /\ timers s' = timers s /\
    nextTimer s' = nextTimer s /\ now s' = now s
  end.
Proof.
  unfold forEach.
  destruct (forEach_from react fuel 0 arg (frameListenersRef s) (delivered s))
    as [[es log] [| |]]; cbn; repeat split.
Qed.

Lemma onmessage_contents (k : Stream) (frame : Parse) (s : State) :
  contents k (onmessage react fuel frame s) =
  match record_of k frame with
  | Some d => bounded_append (capacity k) d (contents k s)
  | None => contents k s
  end.
Proof.
  unfold onmessage, onmessage_try, record_of, access.
  destruct frame as [| msg]; [reflexivity |].
  destruct msg as [| | b | n | t | items | fields]; try (destruct k; reflexivity).
  cbn [get]. destruct (lookup "type" fields) as [| | b | n | t | items | fs'];
    try (destruct k; reflexivity).
  cbn [tag_is]. by_tag t; try (destruct k; reflexivity).
  - pose proof (forEach_sinks (get (lookup "data" fields) "frame") s) as H.
    destruct (forEach react fuel (get (lookup "data" fields) "frame") s);
      destruct H as [H _]; destruct k; cbn in *; now rewrite H.
  - destruct (lookup "data" fields); destruct k; reflexivity.
  - destruct k; cbn [tag]; rewrite ?E, ?E0, ?E1, ?E3; reflexivity.
Qed.

Lemma step_hung (s : State) (e : Event) :
  hung s = true -> step react fuel s e = s.
Proof. intros H. unfold step. now rewrite H. Qed.

Lemma run_hung (s : State) (evs : list Event) :
  hung s = true -> run react fuel s evs = s.
Proof.
  intros H. induction evs as [| e evs IH]; [reflexivity |].
  cbn. now rewrite step_hung.
Qed.

Lemma run_cons (s : State) (e : Event) (evs : list Event) :
  run react fuel s (e :: evs) = run react fuel (step react fuel s e) evs.
Proof. reflexivity. Qed.

Lemma run_app (s : State) (a b : list Event) :
  run react fuel s (a ++ b) = run react fuel (run react fuel s a) b.
Proof. apply fold_left_app. Qed.

Lemma onmessage_sockets (frame : Parse) (s : State) :
  sockets (onmessage react fuel frame s) = sockets s.
Proof.
  unfold onmessage, onmessage_try, access.
  destruct frame as [| msg]; [reflexivity |].
  destruct msg as [| | b | n | t | items | fields]; try reflexivity.
  cbn [get]. destruct (lookup "type" fields) as [| | b | n | t | items | fs'];
    try reflexivity.
  cbn [tag_is]. by_tag t; try reflexivity.
  - pose proof (forEach_sinks (get (lookup "data" fields) "frame") s) as H.
    destruct (forEach react fuel (get (lookup "data" fields) "frame") s);
      apply H.
  - destruct (lookup "data" fields); reflexivity.
Qed.

Lemma run_messages_contents (k : Stream) (ws : nat) (frames : list Parse) (s : State) :
  readyState ws s = Some OPEN ->
  hung (run react fuel s (map (WsMessage ws) frames)) = false ->
  contents k (run react fuel s (map (WsMessage ws) frames)) =
  fold_left (fun acc x => bounded_append (capacity k) x acc)
    (records_of k frames) (contents k s).
Proof.
  revert s. induction frames as [| f frames IH]; intros s Hopen Hrun;
    [reflexivity |].
  cbn [map] in *. rewrite run_cons in *.
  destruct (hung s) eqn:Hs.
  { rewrite step_hung, run_hung in Hrun by assumption. congruence. }
  assert (Estep : step react fuel s (WsMessage ws f) = onmessage react fuel f s).
  { unfold step. now rewrite Hs, Hopen. }
  rewrite Estep in *.
  rewrite IH; [| unfold readyState in *; now rewrite onmessage_sockets | assumption].
  rewrite onmessage_contents. cbn [records_of].
  destruct (record_of k f); reflexivity.
Qed.

End Router.

(** C1.  For each bounded stream (telemetry history 120, decisions 50,
    explanations 50, suggestions 20): when the frames received on an open
    socket are processed in order, and [recs] are the records that the
    envelopes of the stream's type carry, the stream ends up holding exactly
    the last [capacity] records of [recs], in their order, as soon as [recs]
    has at least [capacity] elements; and a stream that was empty holds all
    of [recs], in order, while [recs] has fewer elements. *)
Theorem bounded_stream_keeps_last
  (react : Behaviour) (fuel : nat) (k : Stream) (ws : nat)
  (frames : list Parse) (s : State) :
  readyState ws s = Some OPEN ->
  let s' := run react fuel s (map (WsMessage ws) frames) in
  hung s' = false ->
  let recs := records_of k frames in
  map capacity [TelemetryStream; DecisionStream; ExplanationStream; SuggestionStream] =
    [120; 50; 50; 20] /\
  (capacity k <= Z.of_nat (length recs) ->
   contents k s' = last_n (Z.to_nat (capacity k)) recs) /\
  (Z.of_nat (length recs) < capacity k -> contents k s = [] ->
   contents k s' = recs).
Proof.
  intros Hopen s' Hrun recs. subst s'. split; [reflexivity |].
  rewrite (run_messages_contents react fuel k ws frames s Hopen Hrun).
  fold recs. rewrite fold_bounded_append. split.
  - intros Hlen. destruct recs as [| r recs'] eqn:E.
    + pose proof (capacity_pos k). cbn in Hlen. lia.
    + apply last_n_app. lia.
  - intros Hlen Hempty. rewrite Hempty. destruct recs as [| r recs'] eqn:E;
      [reflexivity |].
    cbn [app]. apply last_n_all. lia.
Qed.

(** C1, on the scenario of the specification: 130 telemetry envelopes with
    timestamps 1..130 leave timestamps 11..130; three envelopes on a fresh
    client are all kept. *)
Lemma bounded_stream_keeps_last_witness :
  let tel := fun n => envelope "telemetry" (JObj [("timestamp", JNum (Z.of_nat n))]) in
  let s := run passive 0 init [Mount; WsOpen 0] in
  contents TelemetryStream (run passive 0 s (map (WsMessage 0) (map tel (seq 1 130)))) =
    last_n 120 (records_of TelemetryStream (map tel (seq 1 130))) /\
  contents TelemetryStream (run passive 0 s (map (WsMessage 0) (map tel (seq 1 3)))) =
    records_of TelemetryStream (map tel (seq 1 3)).
Proof.
  intros tel s. split.
  - destruct (bounded_stream_keeps_last passive 0 TelemetryStream 0
                (map tel (seq 1 130)) s) as (_ & H & _);
      [reflexivity | vm_compute; reflexivity |].
    apply H. vm_compute. discriminate.
  - destruct (bounded_stream_keeps_last passive 0 TelemetryStream 0
                (map tel (seq 1 3)) s) as (_ & _ & H);
      [reflexivity | vm_compute; reflexivity |].
    apply H; [vm_compute; reflexivity | reflexivity].
Defined.

(** ** Frames the router discards *)

(** C3.  A frame that fails to decode, or that decodes to an envelope whose
    type tag is not a recognized one, changes nothing: the handler returns
    (the error, if any, is caught) and the whole state, every sink and the
    calls made to the frame subscribers included, is what it was. *)
Theorem discarded_frame_changes_nothing
  (react : Behaviour) (fuel : nat) (frame : Parse) (ws : nat) (s : State) :
  discarded frame = true ->
  onmessage react fuel frame s = s /\
  step react fuel s (WsMessage ws frame) = s.
Proof.
  intros H.
  assert (E : onmessage react fuel frame s = s).
  { unfold onmessage, onmessage_try, access. unfold discarded in H.
    destruct frame as [| msg]; [reflexivity |].
    destruct msg as [| | b | n | t | items | fields]; try reflexivity.
    cbn [get] in *.
    destruct (lookup "type" fields) as [| | b | n | t | items | fs'];
      try reflexivity.
    cbn [tag_is]. by_tag t; try discriminate H. reflexivity. }
  split; [exact E |].
  unfold step. destruct (hung s); [reflexivity |].
  destruct (readyState ws s) as [[| | |] |]; auto.
Qed.

Lemma discarded_frame_changes_nothing_witness :
  let s := run passive 0 init [Mount; WsOpen 0; Subscribe 1;
             WsMessage 0 (envelope "telemetry" (JNum 7))] in
  (onmessage passive 0 SyntaxError s = s /\
   step passive 0 s (WsMessage 0 SyntaxError) = s) /\
  (onmessage passive 0 (envelope "ping" JNull) s = s /\
   step passive 0 s (WsMessage 0 (envelope "ping" JNull)) = s).
Proof.
  intros s. split.
  - apply (discarded_frame_changes_nothing passive 0 SyntaxError 0 s). reflexivity.
  - apply (discarded_frame_changes_nothing passive 0 (envelope "ping" JNull) 0 s).
    reflexivity.
Defined.

(** ** Reconnection with backoff *)

Lemma reconnect_delay_pos (r : nat) : 0 < reconnect_delay r.
Proof.
  unfold reconnect_delay.
  assert (0 < 2 ^ Z.of_nat r) by (apply Z.pow_pos_nonneg; lia). lia.
Qed.

Lemma reconnect_delay_capped (r : nat) : reconnect_delay (5 + r) = 30000.
Proof.
  unfold reconnect_delay.
  rewrite Nat2Z.inj_add, Z.pow_add_r by lia.
  assert (0 < 2 ^ Z.of_nat r) by (apply Z.pow_pos_nonneg; lia).
  change (2 ^ Z.of_nat 5) with 32. lia.
Qed.

Lemma find_fresh_timer (id : nat) (t : Timer) (l : list Timer) :
  Forall (fun u => (timer_id u < id)%nat) l -> timer_id t = id ->
  find (fun u => Nat.eqb (timer_id u) id) (l ++ [t]) = Some t.
Proof.
  intros Hl Ht. induction Hl as [| u l Hu Hl IH]; cbn.
  - now rewrite Ht, Nat.eqb_refl.
  - destruct (Nat.eqb_spec (timer_id u) id); [lia | exact IH].
Qed.

Lemma filter_fresh_timer (id : nat) (t : Timer) (l : list Timer) :
  Forall (fun u => (timer_id u < id)%nat) l -> timer_id t = id ->
  filter (fun u => negb (Nat.eqb (timer_id u) id)) (l ++ [t]) = l.
Proof.
  intros Hl Ht. induction Hl as [| u l Hu Hl IH]; cbn.
  - now rewrite Ht, Nat.eqb_refl.
  - destruct (Nat.eqb_spec (timer_id u) id); [lia | cbn; now rewrite IH].
Qed.

Lemma nth_error_update {A : Type} (i : nat) (x y : A) (l : list A) :
  nth_error l i = Some y -> nth_error (update i x l) i = Some x.
Proof.
  revert i. induction l as [| z l IH]; intros [| i] H; cbn in *;
    try discriminate; auto.
Qed.

Lemma length_update {A : Type} (i : nat) (x : A) (l : list A) :
  length (update i x l) = length l.
Proof.
  revert i. induction l as [| z l IH]; intros [| i]; cbn; auto.
Qed.

Section Backoff.

Variable react : Behaviour.
Variable fuel : nat.

(** One failed connection: the close schedules the reconnection timer
    [reconnect_delay (retriesRef s)] ahead and counts the retry; when the
    timer runs, a new socket is connecting. *)
Lemma failure_cycle (s : State) (ws : nat) :
  connection_up s -> wsRef s = Some ws ->
  let s1 := step react fuel s (WsClose ws) in
  let t := mkTimer (nextTimer s) (now s + reconnect_delay (retriesRef s)) Reconnect in
  find_timer (nextTimer s) s1 = Some t /\ now s1 = now s /\
  let s2 := run react fuel s1 [Elapse (due t - now s1); TimerFire (timer_id t)] in
  connection_up s2 /\ retriesRef s2 = S (retriesRef s) /\
  (exists ws', wsRef s2 = Some ws' /\ readyState ws' s2 = Some CONNECTING).
Proof.
  intros (Hh & Hm & Hf & ws0 & Hw & Hl) Hws.
  rewrite Hws in Hw. injection Hw as <-.
  pose proof (reconnect_delay_pos (retriesRef s)) as Hpos.
  destruct s as [c k w r m ls so ti nt nw dl h].
  unfold live, readyState, timers_fresh in *. cbn in *. subst h m w.
  destruct (nth_error so ws) as [st |] eqn:Eso; [| discriminate].
  assert (Hstep :
    step react fuel (mkState c k (Some ws) r true ls so ti nt nw dl false) (WsClose ws) =
    mkState false k (Some ws) (S r) true ls (update ws CLOSED so)
      (ti ++ [mkTimer nt (nw + reconnect_delay r) Reconnect]) (S nt) nw dl false).
  { unfold step, readyState. cbn. rewrite Eso. destruct st; try discriminate; reflexivity. }
  rewrite Hstep. clear Hstep. unfold find_timer. cbn [timers nextTimer now].
  rewrite (find_fresh_timer nt (mkTimer nt (nw + reconnect_delay r) Reconnect) ti Hf eq_refl).
  split; [reflexivity |]. split; [reflexivity |].
  cbn [due timer_id].
  replace (nw + reconnect_delay r - nw) with (reconnect_delay r) by lia.
  match goal with
  | |- context [step react fuel ?a (TimerFire nt)] =>
    set (s2 := step react fuel a (TimerFire nt))
  end.
  assert (Es2 : s2 =
    mkState false k (Some (length (update ws CLOSED so))) (S r) true ls
      (update ws CLOSED so ++ [CONNECTING]) ti (S nt) (nw + reconnect_delay r) dl false).
  { subst s2. unfold step at 2. cbn [hung].
    destruct (0 <=? reconnect_delay r) eqn:E; [| apply Z.leb_gt in E; lia].
    unfold step, find_timer, setNow. cbn.
    rewrite (find_fresh_timer nt (mkTimer nt (nw + reconnect_delay r) Reconnect) ti Hf eq_refl).
    cbn. rewrite Z.leb_refl.
    unfold remove_timer, run_timer, connect, newWebSocket, setTimers, setSockets,
      setWsRef. cbn.
    now rewrite (filter_fresh_timer nt (mkTimer nt (nw + reconnect_delay r) Reconnect) ti Hf eq_refl). }
  rewrite Es2. clear Es2 s2.
  unfold connection_up, timers_fresh, live, readyState. cbn.
  repeat split; auto.
  - eapply Forall_impl; [| exact Hf]. cbn. intros; lia.
  - eexists; split; [reflexivity |].
    rewrite nth_error_app2, Nat.sub_diag by lia. reflexivity.
  - eexists; split; [reflexivity |].
    rewrite nth_error_app2, Nat.sub_diag by lia. reflexivity.
Qed.

Lemma failures_delays (n : nat) (s : State) :
  connection_up s ->
  fst (failures react fuel n s) = map reconnect_delay (seq (retriesRef s) n) /\
  retriesRef (snd (failures react fuel n s)) = (retriesRef s + n)%nat /\
  connection_up (snd (failures react fuel n s)) /\
  ((0 < n)%nat -> exists ws, wsRef (snd (failures react fuel n s)) = Some ws /\
     readyState ws (snd (failures react fuel n s)) = Some CONNECTING).
Proof.
  revert s. induction n as [| n IH]; intros s Hup.
  - cbn. split; [reflexivity |]. split; [lia |]. split; [assumption |]. intros; lia.
  - pose proof Hup as (_ & _ & _ & ws & Hws & _).
    destruct (failure_cycle s ws Hup Hws) as (Hfind & Hnow & Hup2 & Hr & Hc).
    cbn [failures]. rewrite Hws, Hfind. cbn [due timer_id] in *.
    specialize (IH _ Hup2). rewrite Hr in IH.
    destruct (failures react fuel n _) as [ds s3] eqn:E. cbn [fst snd] in *.
    destruct IH as (IH1 & IH2 & IH3 & IH4).
    rewrite Hnow, IH1.
    replace (now s + reconnect_delay (retriesRef s) - now s)
      with (reconnect_delay (retriesRef s)) by lia.
    split; [reflexivity |]. split; [lia |]. split; [assumption |].
    intros _. destruct n as [| n'].
    + cbn in E. injection E as <- <-. exact Hc.
    + apply IH4. lia.
Qed.

Lemma fresh_up :
  connection_up (run react fuel init [Mount]) /\
  retriesRef (run react fuel init [Mount]) = 0%nat /\
  exists ws, wsRef (run react fuel init [Mount]) = Some ws /\
    readyState ws (run react fuel init [Mount]) = Some CONNECTING.
Proof.
  cbn. unfold connection_up, timers_fresh, live. cbn.
  repeat split; eauto.
Qed.

(** A handshake that succeeds on a connecting socket resets the retry
    counter and leaves the connection up. *)
Lemma opens_resets (s : State) :
  connection_up s ->
  (exists ws, wsRef s = Some ws /\ readyState ws s = Some CONNECTING) ->
  connection_up (opens react fuel s) /\ retriesRef (opens react fuel s) = 0%nat /\
  connected (opens react fuel s) = true.
Proof.
  intros (Hh & Hm & Hf & _) (ws & Hws & Hc).
  unfold opens, step. rewrite Hws, Hh, Hc.
  unfold connection_up, timers_fresh, live, readyState in *. cbn.
  repeat split; auto.
  exists ws. split; [exact Hws |].
  now rewrite (nth_error_update ws OPEN CONNECTING).
Qed.

End Backoff.

(** C2.  From a freshly mounted client the retry counter is 0; the delays of
    [n] consecutive failed connections are [min (1000 * 2^r) 30000]
    milliseconds for r = 0, 1, ..., n-1, that is 1, 2, 4, 8, 16, 30, 30, ...
    seconds, and the retry counter is [n] afterwards (one increment per
    scheduling).  After any number [m] of failures a successful open puts the
    counter back to 0, and the delays of the failures that follow start
    again from 1 second. *)
Theorem reconnect_backoff (react : Behaviour) (fuel : nat) (m n r : nat) :
  let delay := fun r : nat => Z.min (1000 * 2 ^ Z.of_nat r) 30000 in
  let fresh := run react fuel init [Mount] in
  retriesRef fresh = 0%nat /\
  fst (failures react fuel n fresh) = map delay (seq 0 n) /\
  retriesRef (snd (failures react fuel n fresh)) = n /\
  map (fun d => d / 1000) (fst (failures react fuel 7 fresh)) = [1; 2; 4; 8; 16; 30; 30] /\
  delay (5 + r)%nat = 30000 /\
  let reopened := opens react fuel (snd (failures react fuel m fresh)) in
  retriesRef reopened = 0%nat /\
  connected reopened = true /\
  fst (failures react fuel n reopened) = map delay (seq 0 n).
Proof.
  intros delay fresh.
  destruct (fresh_up react fuel) as (Hup & Hr & Hc). fold fresh in Hup, Hr, Hc.
  destruct (failures_delays react fuel n fresh Hup) as (Hd & Hn & _ & _).
  destruct (failures_delays react fuel 7 fresh Hup) as (Hd7 & _).
  destruct (failures_delays react fuel m fresh Hup) as (_ & _ & Hupm & Hcm).
  rewrite Hr in *. cbn [Nat.add] in Hn.
  assert (Hconn : exists ws, wsRef (snd (failures react fuel m fresh)) = Some ws /\
     readyState ws (snd (failures react fuel m fresh)) = Some CONNECTING).
  { destruct m as [| m']; [exact Hc | apply Hcm; lia]. }
  destruct (opens_resets react fuel _ Hupm Hconn) as (Hup' & Hr' & Hco').
  destruct (failures_delays react fuel n _ Hup') as (Hd' & _).
  rewrite Hr' in Hd'.
  split; [reflexivity |]. split; [exact Hd |]. split; [exact Hn |].
  split; [rewrite Hd7; reflexivity |].
  split; [apply reconnect_delay_capped |].
  cbv zeta. split; [exact Hr' |]. split; [exact Hco' | exact Hd'].
Qed.

(** ** What each handler leaves alone *)

Section Frames.

Variable react : Behaviour.
Variable fuel : nat.

Lemma pending_reconnects_status (l : list Timer) (id : nat) (t : Z) :
  filter is_reconnect (l ++ [mkTimer id t ClearNotification]) = filter is_reconnect l.
Proof. rewrite filter_app. cbn. apply app_nil_r. Qed.

(** The router touches neither the connection nor the reconnection timers. *)
Lemma onmessage_connection (frame : Parse) (s : State) :
  let s' := onmessage react fuel frame s in
  connected s' = connected s /\ wsRef s' = wsRef s /\
  retriesRef s' = retriesRef s /\ mountedRef s' = mountedRef s /\
  sockets s' = sockets s /\ now s' = now s /\
  pending_reconnects s' = pending_reconnects s.
Proof.
  unfold onmessage, onmessage_try, access, pending_reconnects.
  destruct frame as [| msg]; [cbn; tauto |].
  destruct msg as [| | b | n | t | items | fields]; try (cbn; tauto).
  cbn [get]. destruct (lookup "type" fields) as [| | b | n | t | items | fs'];
    try (cbn; tauto).
  cbn [tag_is]. by_tag t; try (cbn; tauto).
  - pose proof (forEach_sinks react fuel (get (lookup "data" fields) "frame") s) as H.
    destruct (forEach react fuel (get (lookup "data" fields) "frame") s);
      cbn; destruct H as (_ & -> & -> & -> & -> & -> & -> & _ & ->); tauto.
  - destruct (lookup "data" fields); cbn; rewrite ?pending_reconnects_status; tauto.
Qed.

(** What a step does outside the sinks does not depend on the sinks. *)
Lemma onmessage_outside (frame : Parse) (s1 s2 : State) :
  outside_sinks s1 = outside_sinks s2 ->
  outside_sinks (onmessage react fuel frame s1) =
  outside_sinks (onmessage react fuel frame s2).
Proof.
  intros H. destruct s1, s2. unfold outside_sinks in H. cbn in H.
  injection H as -> -> -> -> -> -> -> -> -> -> ->.
  unfold onmessage, onmessage_try, access.
  destruct frame as [| msg]; [reflexivity |].
  destruct msg as [| | b | n | t | items | fields]; try reflexivity.
  cbn [get]. destruct (lookup "type" fields) as [| | b | n | t | items | fs'];
    try reflexivity.
  cbn [tag_is]. by_tag t; try reflexivity.
  - unfold forEach. cbn.
    destruct (forEach_from react fuel 0 _ _ _) as [[es log] [| |]]; reflexivity.
  - destruct (lookup "data" fields); reflexivity.
Qed.

Lemma step_outside (e : Event) (s1 s2 : State) :
  outside_sinks s1 = outside_sinks s2 ->
  outside_sinks (step react fuel s1 e) = outside_sinks (step react fuel s2 e).
Proof.
  intros H. destruct e.
  4: { pose proof (onmessage_outside frame s1 s2 H) as Hm.
       destruct s1, s2; unfold outside_sinks in H; cbn in H;
       injection H as -> -> -> -> -> -> -> -> -> -> ->.
       unfold step, readyState. cbn [hung sockets].
       destruct hung1; [reflexivity |].
       destruct (nth_error sockets1 ws) as [[| | |] |]; auto. }
  all: destruct s1, s2; unfold outside_sinks in H; cbn in H;
    injection H as -> -> -> -> -> -> -> -> -> -> ->;
    unfold step, readyState, find_timer; cbn [hung sockets timers];
    destruct hung1; try reflexivity.
  - unfold unmount, ws_close, readyState. cbn.
    destruct wsRef1 as [w |]; [| reflexivity].
    destruct (nth_error sockets1 w) as [[| | |] |]; reflexivity.
  - destruct (nth_error sockets1 ws) as [[| | |] |]; reflexivity.
  - unfold onerror, ws_close, readyState. cbn.
    destruct (nth_error sockets1 ws) as [[| | |] |]; reflexivity.
  - destruct (nth_error sockets1 ws) as [[| | |] |]; try reflexivity;
      unfold onclose; cbn; destruct mountedRef1; reflexivity.
  - cbn. destruct (0 <=? dt); reflexivity.
  - destruct (find _ timers1) as [t |]; [| reflexivity]. cbn [now].
    destruct (due t <=? now1); [| reflexivity].
    destruct (action t); cbn; [reflexivity |].
    unfold connect. cbn. destruct mountedRef1; reflexivity.
Qed.

Lemma run_outside (evs : list Event) (s1 s2 : State) :
  outside_sinks s1 = outside_sinks s2 ->
  outside_sinks (run react fuel s1 evs) = outside_sinks (run react fuel s2 evs).
Proof.
  revert s1 s2. induction evs as [| e evs IH]; intros s1 s2 H; [exact H |].
  cbn. apply IH, step_outside, H.
Qed.

End Frames.

(** ** Reset *)

(** C10.  An explicit reset changes the sinks only: the connection (the
    current socket and every socket's state), the connected flag, the retry
    counter, the set of frame subscribers, the mounted flag and the pending
    timers are what they were.  Nothing that happens later outside the sinks
    depends on the reset: after any events, the state outside the sinks is
    the one reached without the reset; in particular a close schedules the
    same reconnection delay and a video frame is delivered to the same
    subscribers. *)
Theorem reset_touches_only_sinks
  (react : Behaviour) (fuel : nat) (s : State) (evs : list Event)
  (ws : nat) (x : Value) :
  let s' := step react fuel s Reset in
  connected s' = connected s /\ wsRef s' = wsRef s /\ sockets s' = sockets s /\
  retriesRef s' = retriesRef s /\ frameListenersRef s' = frameListenersRef s /\
  mountedRef s' = mountedRef s /\ timers s' = timers s /\
  outside_sinks (run react fuel s' evs) = outside_sinks (run react fuel s evs) /\
  timers (step react fuel s' (WsClose ws)) = timers (step react fuel s (WsClose ws)) /\
  retriesRef (step react fuel s' (WsClose ws)) =
    retriesRef (step react fuel s (WsClose ws)) /\
  delivered (step react fuel s' (WsMessage ws (video_frame x))) =
    delivered (step react fuel s (WsMessage ws (video_frame x))).
Proof.
  intros s'.
  assert (H : outside_sinks s' = outside_sinks s).
  { subst s'. unfold step. destruct (hung s); reflexivity. }
  pose proof (run_outside react fuel evs s' s H) as Hrun.
  pose proof (step_outside react fuel (WsClose ws) s' s H) as Hclose.
  pose proof (step_outside react fuel (WsMessage ws (video_frame x)) s' s H) as Hmsg.
  unfold outside_sinks in H, Hclose, Hmsg.
  injection H as Hc Hw Hr Hm Hl Hs Ht _ _ _ _.
  injection Hclose as _ _ Hcr _ _ _ Hct _ _ _ _.
  injection Hmsg as _ _ _ _ _ _ _ _ _ Hd _.
  repeat split; assumption.
Qed.

(** ** Disconnect and reconnect *)

Section Cycle.

Variable react : Behaviour.
Variable fuel : nat.

Lemma reconnection_event_sinks (s : State) (e : Event) :
  reconnection_event s e = true -> sinks (step react fuel s e) = sinks s.
Proof.
  intros H. unfold step. destruct (hung s); [reflexivity |].
  destruct e; try discriminate H; cbn in H.
  - destruct (readyState ws s) as [[| | |] |]; reflexivity.
  - unfold onerror, ws_close.
    destruct (readyState ws s) as [[| | |] |]; reflexivity.
  - unfold onclose.
    destruct (readyState ws s) as [[| | |] |]; try reflexivity;
      cbn; destruct (mountedRef s); reflexivity.
  - destruct (0 <=? dt); reflexivity.
  - destruct (find_timer id s) as [t |]; [| reflexivity].
    destruct (due t <=? now s); [| reflexivity].
    unfold is_reconnect in H. destruct (action t); [discriminate |].
    unfold run_timer, connect. cbn. destruct (mountedRef s); reflexivity.
Qed.

Lemma reconnection_only_sinks (evs : list Event) (s : State) :
  reconnection_only react fuel s evs = true ->
  sinks (run react fuel s evs) = sinks s.
Proof.
  revert s. induction evs as [| e evs IH]; intros s H; [reflexivity |].
  cbn in H. apply andb_true_iff in H as [He Hr].
  rewrite run_cons, (IH _ Hr). now apply reconnection_event_sinks.
Qed.

End Cycle.

(** C7.  A disconnect / reconnect cycle (socket errors, closes and opens,
    time passing, reconnection timers running) leaves every sink as it was.
    An explicit reset empties every bounded stream, every latest-value slot
    and the notification; a telemetry envelope received after it is
    dispatched as usual: it becomes the latest value and the only element of
    the history. *)
Theorem reconnect_keeps_reset_clears
  (react : Behaviour) (fuel : nat) (s : State) (evs : list Event)
  (ws : nat) (snap : Value) :
  (reconnection_only react fuel s evs = true ->
   sinks (run react fuel s evs) = sinks s) /\
  (hung s = false ->
   sinks (step react fuel s Reset) = mkSinks JNull [] [] [] [] JNull JNull None) /\
  (hung s = false -> readyState ws s = Some OPEN ->
   sinks (run react fuel s [Reset; WsMessage ws (envelope "telemetry" snap)]) =
   mkSinks snap [snap] [] [] [] JNull JNull None).
Proof.
  split; [apply reconnection_only_sinks |].
  split.
  - intros Hh. unfold step. rewrite Hh. reflexivity.
  - intros Hh Hopen. cbn. unfold step at 2. rewrite Hh.
    unfold step, readyState in *. cbn. rewrite Hh, Hopen. reflexivity.
Qed.

Lemma reconnect_keeps_reset_clears_witness :
  let tel := fun n => WsMessage 0 (envelope "telemetry" (JNum n)) in
  let s := run passive 0 init [Mount; WsOpen 0; tel 1; tel 2] in
  sinks (run passive 0 s [WsError 0; WsClose 0; Elapse 1000; TimerFire 0; WsOpen 1]) =
    sinks s /\
  sinks (step passive 0 s Reset) = mkSinks JNull [] [] [] [] JNull JNull None /\
  sinks (run passive 0 s [Reset; WsMessage 0 (envelope "telemetry" (JNum 3))]) =
    mkSinks (JNum 3) [JNum 3] [] [] [] JNull JNull None.
Proof.
  intros tel s.
  destruct (reconnect_keeps_reset_clears passive 0 s
              [WsError 0; WsClose 0; Elapse 1000; TimerFire 0; WsOpen 1]
              0 (JNum 3)) as (H1 & H2 & H3).
  split; [apply H1; reflexivity |].
  split; [apply H2; reflexivity | apply H3; reflexivity].
Defined.

(** ** Teardown *)

Section Teardown.

Variable react : Behaviour.
Variable fuel : nat.

Lemma incl_filter_filter {A : Type} (f g : A -> bool) (l : list A) :
  incl (filter f (filter g l)) (filter f l).
Proof.
  intros x Hx. apply filter_In in Hx as [Hx Hf].
  apply filter_In in Hx as [Hx _]. apply filter_In. now split.
Qed.

(** Once the client is unmounted, no event but a new mount creates a socket
    or schedules a reconnection. *)
Lemma unmounted_step (s : State) (e : Event) :
  mountedRef s = false -> is_mount e = false ->
  mountedRef (step react fuel s e) = false /\
  length (sockets (step react fuel s e)) = length (sockets s) /\
  incl (pending_reconnects (step react fuel s e)) (pending_reconnects s).
Proof.
  intros Hm He. unfold step.
  destruct (hung s); [auto using incl_refl |].
  destruct e; try discriminate He.
  - unfold unmount, ws_close. cbn.
    destruct (wsRef s) as [w |]; [| auto using incl_refl].
    destruct (readyState w (setMounted false s)) as [[| | |] |]; cbn;
      rewrite ?length_update; auto using incl_refl.
  - destruct (readyState ws s) as [[| | |] |]; cbn;
      rewrite ?length_update; auto using incl_refl.
  - destruct (onmessage_connection react fuel frame s)
      as (_ & _ & _ & Hmo & Hso & _ & Hp).
    destruct (readyState ws s) as [[| | |] |]; auto using incl_refl.
    rewrite Hmo, Hso, Hp. auto using incl_refl.
  - unfold onerror, ws_close.
    destruct (readyState ws s) as [[| | |] |] eqn:E; auto using incl_refl;
      cbn; rewrite ?length_update; auto using incl_refl.
  - unfold onclose.
    destruct (readyState ws s) as [[| | |] |]; auto using incl_refl;
      cbn; rewrite Hm; cbn; rewrite ?length_update; auto using incl_refl.
  - destruct (0 <=? dt); auto using incl_refl.
  - destruct (find_timer id s) as [t |]; [| auto using incl_refl].
    destruct (due t <=? now s); [| auto using incl_refl].
    unfold run_timer, connect, pending_reconnects.
    destruct (action t); cbn; rewrite ?Hm; cbn;
      auto using incl_filter_filter.
  - auto using incl_refl.
  - auto using incl_refl.
  - auto using incl_refl.
Qed.

Lemma unmounted_run (evs : list Event) (s : State) :
  mountedRef s = false -> forallb (fun e => negb (is_mount e)) evs = true ->
  mountedRef (run react fuel s evs) = false /\
  length (sockets (run react fuel s evs)) = length (sockets s) /\
  incl (pending_reconnects (run react fuel s evs)) (pending_reconnects s).
Proof.
  revert s. induction evs as [| e evs IH]; intros s Hm Hev.
  - cbn. auto using incl_refl.
  - cbn [forallb] in Hev. apply andb_true_iff in Hev as [He Hev].
    apply negb_true_iff in He.
    destruct (unmounted_step s e Hm He) as (Hm1 & Hl1 & Hp1).
    destruct (IH _ Hm1 Hev) as (Hm2 & Hl2 & Hp2).
    rewrite run_cons. repeat split; try congruence.
    eapply incl_tran; eassumption.
Qed.

Lemma unmount_effect (s : State) :
  hung s = false ->
  mountedRef (step react fuel s Unmount) = false /\
  timers (step react fuel s Unmount) = timers s /\
  length (sockets (step react fuel s Unmount)) = length (sockets s) /\
  (forall ws, wsRef s = Some ws -> live ws (step react fuel s Unmount) = false).
Proof.
  intros Hh. unfold step. rewrite Hh. unfold unmount, ws_close, live. cbn.
  destruct (wsRef s) as [w |]; [| repeat split; intros; discriminate].
  unfold readyState. cbn.
  destruct (nth_error (sockets s) w) as [st |] eqn:E.
  - destruct st; cbn; rewrite ?length_update; repeat split;
      intros ws' [= <-]; rewrite ?(nth_error_update w CLOSING _ _ E), ?E;
      reflexivity.
  - cbn. repeat split. intros ws' [= <-]. now rewrite E.
Qed.

End Teardown.

(** C6, as the code has it.  Teardown marks the client unmounted and closes
    the current socket if it is connecting or open.  It cancels no timer:
    the pending timers are the ones there were before.  From then on, as
    long as the client is not mounted again, no socket is ever created and
    no reconnection is ever scheduled: a close event that arrives after
    teardown schedules nothing, and a reconnection timer that was pending at
    teardown creates no socket when it runs. *)
Theorem teardown_stops_reconnection
  (react : Behaviour) (fuel : nat) (s : State) (evs : list Event) :
  hung s = false ->
  forallb (fun e => negb (is_mount e)) evs = true ->
  let s1 := step react fuel s Unmount in
  let s2 := run react fuel s1 evs in
  (forall ws, wsRef s = Some ws -> live ws s1 = false) /\
  timers s1 = timers s /\
  mountedRef s2 = false /\
  length (sockets s2) = length (sockets s) /\
  incl (pending_reconnects s2) (pending_reconnects s).
Proof.
  intros Hh Hev s1 s2.
  destruct (unmount_effect react fuel s Hh) as (Hm & Ht & Hl & Hlive).
  fold s1 in Hm, Ht, Hl, Hlive.
  destruct (unmounted_run react fuel evs s1 Hm Hev) as (Hm2 & Hl2 & Hp2).
  fold s2 in Hm2, Hl2, Hp2.
  repeat split; try congruence; auto.
  unfold pending_reconnects in *. now rewrite <- Ht.
Qed.

(** C6 on two runs.  In the first the socket drops and the client is torn
    down while the reconnection timer is pending; the timer becomes due and
    runs.  In the second the client is torn down while the socket is open;
    the close of the socket arrives afterwards. *)
Lemma teardown_stops_reconnection_witness :
  (let s := run passive 0 init [Mount; WsOpen 0; WsClose 0; Elapse 500] in
   let s1 := step passive 0 s Unmount in
   let s2 := run passive 0 s1 [Elapse 500; TimerFire 0] in
   timers s1 = timers s /\ mountedRef s2 = false /\
   length (sockets s2) = 1%nat /\
   incl (pending_reconnects s2) (pending_reconnects s)) /\
  (let s := run passive 0 init [Mount; WsOpen 0] in
   let s1 := step passive 0 s Unmount in
   let s2 := run passive 0 s1 [WsClose 0; Elapse 1000] in
   live 0 s1 = false /\ length (sockets s2) = 1%nat /\
   incl (pending_reconnects s2) (pending_reconnects s)).
Proof.
  split.
  - intros s s1 s2.
    destruct (teardown_stops_reconnection passive 0 s [Elapse 500; TimerFire 0])
      as (_ & H2 & H3 & H4 & H5); [reflexivity | reflexivity |].
    split; [exact H2 |]. split; [exact H3 |]. split; [exact H4 | exact H5].
  - intros s s1 s2.
    destruct (teardown_stops_reconnection passive 0 s [WsClose 0; Elapse 1000])
      as (H1 & _ & _ & H4 & H5); [reflexivity | reflexivity |].
    split; [apply H1; reflexivity |]. split; [exact H4 | exact H5].
Defined.

(** C6 as stated fails: teardown does not cancel the reconnection timer.
    The socket closes, the close schedules a reconnection, the client is
    torn down; the timer is still pending. *)
Lemma teardown_leaves_timer_pending :
  let s := run passive 0 init [Mount; WsOpen 0; WsClose 0] in
  pending_reconnects s = [mkTimer 0 1000 Reconnect] /\
  pending_reconnects (step passive 0 s Unmount) = [mkTimer 0 1000 Reconnect] /\
  pending_reconnects (step passive 0 s Unmount) <> [].
Proof. cbn. repeat split. discriminate. Qed.

(** ** The notification and its timer *)

(** A status envelope replaces the notification and adds a timer due in
    5000 ms; the timers that were pending stay. *)
Lemma status_post (react : Behaviour) (fuel : nat) (st m : Value) (s : State) :
  let frame := envelope "status" (JObj [("status", st); ("message", m)]) in
  let s' := onmessage react fuel frame s in
  notification (sinks s') = Some (mkNotification st m JUndefined) /\
  timers s' = timers s ++ [mkTimer (nextTimer s) (now s + 5000) ClearNotification].
Proof. split; reflexivity. Qed.

(** C4 fails on the code.  Status A is posted at 0 ms and status B at
    3000 ms.  Each post starts a timer of its own and cancels none, so at
    5000 ms the timer of A runs and empties the slot: B, posted 2 seconds
    earlier, is gone, while its own timer is still pending, due at 8000 ms. *)
Theorem superseding_status_cleared_early :
  let st := fun m => WsMessage 0
    (envelope "status" (JObj [("status", JStr "info"); ("message", JStr m)])) in
  let posted := run passive 0 init [Mount; WsOpen 0; st "A"; Elapse 3000; st "B"] in
  let later := run passive 0 posted [Elapse 2000; TimerFire 0] in
  now posted = 3000 /\
  notification (sinks posted) = Some (mkNotification (JStr "info") (JStr "B") JUndefined) /\
  timers posted = [mkTimer 0 5000 ClearNotification; mkTimer 1 8000 ClearNotification] /\
  now later = 5000 /\
  notification (sinks later) = None /\
  timers later = [mkTimer 1 8000 ClearNotification].
Proof. cbn. repeat split. Qed.

(** ** Telemetry: latest value and history *)

Lemma last_bounded_append (k : Stream) (x d : Value) (prev : list Value) :
  last (bounded_append (capacity k) x prev) d = x.
Proof.
  rewrite <- (capacity_nat k), bounded_append_last_n by apply capacity_pos.
  pose proof (capacity_pos k).
  rewrite last_n_app_short by (cbn; lia). apply last_last.
Qed.

Lemma Forall_bounded_append (P : Value -> Prop) (k : Stream) (x : Value)
  (prev : list Value) :
  Forall P prev -> P x -> Forall P (bounded_append (capacity k) x prev).
Proof.
  intros Hp Hx.
  rewrite <- (capacity_nat k), bounded_append_last_n by apply capacity_pos.
  unfold last_n. apply Forall_forall. intros y Hy.
  assert (Hall : Forall P (prev ++ [x])) by (apply Forall_app; auto).
  rewrite Forall_forall in Hall. apply Hall.
  rewrite <- (firstn_skipn (length (prev ++ [x]) - Z.to_nat (capacity k)) (prev ++ [x])).
  apply in_or_app. now right.
Qed.

Section Telemetry.

Variable react : Behaviour.
Variable fuel : nat.

Lemma onmessage_telemetry (frame : Parse) (s : State) :
  let s' := onmessage react fuel frame s in
  match record_of TelemetryStream frame with
  | Some d =>
    telemetry (sinks s') = d /\
    telemetryHistory (sinks s') =
      bounded_append MAX_HISTORY d (telemetryHistory (sinks s))
  | None =>
    telemetry (sinks s') = telemetry (sinks s) /\
    telemetryHistory (sinks s') = telemetryHistory (sinks s)
  end.
Proof.
  unfold onmessage, onmessage_try, record_of, access.
  destruct frame as [| msg]; [cbn; tauto |].
  destruct msg as [| | b | n | t | items | fields]; try (cbn; tauto).
  cbn [get]. destruct (lookup "type" fields) as [| | b | n | t | items | fs'];
    try (cbn; tauto).
  cbn [tag_is tag]. by_tag t; try (cbn; tauto).
  - pose proof (forEach_sinks react fuel (get (lookup "data" fields) "frame") s) as H.
    destruct (forEach react fuel (get (lookup "data" fields) "frame") s);
      destruct H as [H _]; cbn; now rewrite H.
  - destruct (lookup "data" fields); cbn; tauto.
Qed.

Lemma telemetry_step (s : State) (e : Event) :
  slot_tracks s ->
  slot_tracks (step react fuel s e) /\
  (telemetry_present e = true -> no_null s -> no_null (step react fuel s e)).
Proof.
  unfold slot_tracks, no_null. intros Hs. unfold step.
  destruct (hung s); [tauto |].
  destruct e; try (split; [exact Hs | tauto]).
  - unfold unmount, ws_close. cbn. destruct (wsRef s); [| tauto].
    destruct (readyState _ _) as [[| | |] |]; tauto.
  - destruct (readyState ws s) as [[| | |] |]; tauto.
  - destruct (readyState ws s) as [[| | |] |]; try tauto.
    pose proof (onmessage_telemetry frame s) as H. cbn zeta in H.
    unfold telemetry_present.
    destruct (record_of TelemetryStream frame) as [d |]; destruct H as [Ht Hh];
      rewrite Ht, Hh.
    + split; [symmetry; apply (last_bounded_append TelemetryStream) |].
      intros Hd Hn. apply (Forall_bounded_append _ TelemetryStream); auto.
      now apply negb_true_iff.
    + tauto.
  - unfold onerror, ws_close.
    destruct (readyState ws s) as [[| | |] |]; tauto.
  - unfold onclose.
    destruct (readyState ws s) as [[| | |] |]; try tauto;
      cbn; destruct (mountedRef s); tauto.
  - destruct (0 <=? dt); tauto.
  - destruct (find_timer id s) as [t |]; [| tauto].
    destruct (due t <=? now s); [| tauto].
    unfold run_timer, connect. destruct (action t); cbn; [tauto |].
    destruct (mountedRef s); tauto.
  - split; [reflexivity | intros; constructor].
Qed.

Lemma telemetry_run (evs : list Event) (s : State) :
  slot_tracks s ->
  slot_tracks (run react fuel s evs) /\
  (forallb telemetry_present evs = true -> no_null s ->
   no_null (run react fuel s evs)).
Proof.
  revert s. induction evs as [| e evs IH]; intros s Hs; [cbn; tauto |].
  destruct (telemetry_step s e Hs) as [Hs1 Hn1].
  destruct (IH _ Hs1) as [Hs2 Hn2]. rewrite run_cons.
  split; [exact Hs2 |].
  cbn [forallb]. intros H Hn. apply andb_true_iff in H as [He Hev]. auto.
Qed.

End Telemetry.

(** C8, as the code has it.  After any events on a fresh client the
    telemetry slot is the last element of the telemetry history, and is
    [null] when the history is empty.  When no telemetry envelope carried
    [null] as its data, the slot is [null] exactly when the history is
    empty. *)
Theorem telemetry_slot_tracks_history
  (react : Behaviour) (fuel : nat) (evs : list Event) :
  let s := run react fuel init evs in
  telemetry (sinks s) = last (telemetryHistory (sinks s)) JNull /\
  (telemetryHistory (sinks s) = [] -> telemetry (sinks s) = JNull) /\
  (forallb telemetry_present evs = true ->
   (telemetry (sinks s) = JNull <-> telemetryHistory (sinks s) = [])).
Proof.
  intros s.
  destruct (telemetry_run react fuel evs init eq_refl) as [Hs Hn].
  fold s in Hs, Hn. unfold slot_tracks, no_null in *.
  split; [exact Hs |]. split.
  - intros E. now rewrite Hs, E.
  - intros Hev. specialize (Hn Hev (Forall_nil _)). split.
    + intros E. rewrite Hs in E.
      destruct (telemetryHistory (sinks s)) as [| v l] eqn:El using rev_ind;
        [reflexivity |].
      rewrite last_last in E. apply Forall_app in Hn as [_ Hv].
      inversion Hv as [| ? ? Hnull _]. subst. discriminate.
    + intros E. now rewrite Hs, E.
Qed.

Lemma telemetry_slot_tracks_history_witness :
  let tel := fun n => WsMessage 0 (envelope "telemetry" (JObj [("timestamp", JNum n)])) in
  let s := run passive 0 init [Mount; WsOpen 0; tel 1; tel 2; Reset; tel 3] in
  telemetry (sinks s) = JObj [("timestamp", JNum 3)] /\
  (telemetry (sinks s) = JNull <-> telemetryHistory (sinks s) = []).
Proof.
  intros tel s.
  destruct (telemetry_slot_tracks_history passive 0
              [Mount; WsOpen 0; tel 1; tel 2; Reset; tel 3]) as (H1 & _ & H3).
  split; [exact H1 |]. apply H3. reflexivity.
Defined.

(** C8 as stated fails on an envelope whose data is [null]: the slot is
    [null] while the history has one element. *)
Lemma telemetry_null_data :
  let s := run passive 0 init
             [Mount; WsOpen 0; WsMessage 0 (envelope "telemetry" JNull)] in
  telemetry (sinks s) = JNull /\ telemetryHistory (sinks s) = [JNull] /\
  ~ (telemetry (sinks s) = JNull <-> telemetryHistory (sinks s) = []).
Proof.
  cbn. repeat split. intros [H _]. specialize (H eq_refl). discriminate.
Qed.

(** ** The subscriber set *)

Lemma same_true (cb : Ref) (e : option Ref) : same cb e = true <-> e = Some cb.
Proof.
  destruct e as [c |]; cbn; [| split; discriminate].
  rewrite Nat.eqb_eq. split; congruence.
Qed.

Lemma has_at (cb : Ref) (es : SetData) :
  has cb es = true <-> exists p, nth_error es p = Some (Some cb).
Proof.
  unfold has. rewrite existsb_exists. split.
  - intros (e & Hin & He). apply same_true in He. subst e.
    now apply In_nth_error in Hin.
  - intros (p & Hp). exists (Some cb). split.
    + eapply nth_error_In, Hp.
    + now apply same_true.
Qed.

Lemma has_absent (cb : Ref) (es : SetData) (p : nat) :
  has cb es = false -> nth_error es p <> Some (Some cb).
Proof.
  intros H Hp. assert (has cb es = true) by (apply has_at; eauto). congruence.
Qed.

Lemma add_old (c : Ref) (es : SetData) (p : nat) :
  (p < length es)%nat -> nth_error (add c es) p = nth_error es p.
Proof.
  intros H. unfold add. destruct (has c es); [reflexivity |].
  now apply nth_error_app1.
Qed.

Lemma add_new (c cb : Ref) (es : SetData) (p : nat) :
  (length es <= p)%nat -> nth_error (add c es) p = Some (Some cb) ->
  c = cb /\ p = length es /\ has cb es = false.
Proof.
  intros H Hp. unfold add in Hp. destruct (has c es) eqn:E.
  - apply nth_error_None in H. congruence.
  - rewrite nth_error_app2 in Hp by exact H.
    destruct (p - length es)%nat as [| d] eqn:Ed; cbn in Hp.
    + injection Hp as ->. repeat split; [lia | exact E].
    + destruct d; discriminate.
Qed.

Lemma delete_nth (c : Ref) (es : SetData) (p : nat) :
  nth_error (delete c es) p =
  option_map (fun e => if same c e then None else e) (nth_error es p).
Proof. unfold delete. apply nth_error_map. Qed.

Lemma delete_at (c cb : Ref) (es : SetData) (p : nat) :
  nth_error (delete c es) p = Some (Some cb) <->
  nth_error es p = Some (Some cb) /\ c <> cb.
Proof.
  rewrite delete_nth. destruct (nth_error es p) as [[d |] |]; cbn.
  - destruct (Nat.eqb_spec d c); split.
    + discriminate.
    + intros [[= ->] H]. congruence.
    + intros [= ->]. split; congruence.
    + intros [H _]. exact H.
  - split; [discriminate | intros [H _]; discriminate].
  - split; [discriminate | intros [H _]; discriminate].
Qed.

Lemma has_delete (cb : Ref) (es : SetData) : has cb (delete cb es) = false.
Proof.
  destruct (has cb (delete cb es)) eqn:E; [| reflexivity].
  apply has_at in E as (p & Hp). apply delete_at in Hp as [_ Hp]. congruence.
Qed.

Lemma length_apply_op (o : SetOp) (es : SetData) :
  (length es <= length (apply_op es o))%nat.
Proof.
  destruct o as [c | c]; cbn; unfold add, delete.
  - destruct (has c es); rewrite ?length_app; cbn; lia.
  - rewrite length_map. lia.
Qed.

(** An operation never revives an entry: a live entry at an old position
    was there before. *)
Lemma apply_op_old (cb : Ref) (o : SetOp) (es : SetData) (p : nat) :
  (p < length es)%nat -> nth_error (apply_op es o) p = Some (Some cb) ->
  nth_error es p = Some (Some cb).
Proof.
  intros Hp H. destruct o as [c | c]; cbn in H.
  - now rewrite add_old in H.
  - now apply delete_at in H.
Qed.

Lemma apply_op_unique (cb : Ref) (o : SetOp) (es : SetData) :
  unique cb es -> unique cb (apply_op es o).
Proof.
  intros Hu p q Hp Hq. destruct o as [c | c]; cbn in *.
  - destruct (Nat.lt_ge_cases p (length es)) as [Lp | Lp];
      destruct (Nat.lt_ge_cases q (length es)) as [Lq | Lq].
    + rewrite add_old in Hp, Hq by assumption. auto.
    + apply add_new in Hq as (_ & _ & Hq); [| assumption].
      rewrite add_old in Hp by assumption. now apply has_absent in Hp.
    + apply add_new in Hp as (_ & _ & Hp); [| assumption].
      rewrite add_old in Hq by assumption. now apply has_absent in Hq.
    + apply add_new in Hp as (_ & -> & _); [| assumption].
      apply add_new in Hq as (_ & -> & _); [| assumption]. reflexivity.
  - apply delete_at in Hp as [Hp _]. apply delete_at in Hq as [Hq _]. auto.
Qed.

Lemma apply_op_keeps (cb : Ref) (o : SetOp) (es : SetData) (p : nat) :
  nth_error es p = Some (Some cb) -> o <> OpDelete cb ->
  nth_error (apply_op es o) p = Some (Some cb).
Proof.
  intros Hp Ho. destruct o as [c | c]; cbn.
  - rewrite add_old; [exact Hp |]. apply nth_error_Some. congruence.
  - apply delete_at. split; [exact Hp | congruence].
Qed.

Lemma apply_op_absent (cb : Ref) (o : SetOp) (es : SetData) :
  has cb es = false -> o <> OpAdd cb -> has cb (apply_op es o) = false.
Proof.
  intros H Ho. destruct (has cb (apply_op es o)) eqn:E; [| reflexivity].
  apply has_at in E as (p & Hp).
  destruct (Nat.lt_ge_cases p (length es)) as [L | L].
  - apply apply_op_old in Hp; [| exact L]. now apply has_absent in Hp.
  - destruct o as [c | c]; cbn in Hp.
    + apply add_new in Hp as (-> & _); [congruence | exact L].
    + apply delete_at in Hp as [Hp _]. now apply has_absent in Hp.
Qed.

Lemma deletes_false (cb : Ref) (r : Reaction) :
  deletes cb r = false -> Forall (fun o => o <> OpDelete cb) (ops r).
Proof.
  unfold deletes. intros H. apply Forall_forall. intros o Hin ->.
  assert (E : existsb (fun o => match o with
                                | OpDelete c => Nat.eqb c cb
                                | OpAdd _ => false
                                end) (ops r) = true).
  { apply existsb_exists. exists (OpDelete cb). split; [exact Hin |].
    apply Nat.eqb_refl. }
  congruence.
Qed.

Lemma adds_false (cb : Ref) (r : Reaction) :
  adds cb r = false -> Forall (fun o => o <> OpAdd cb) (ops r).
Proof.
  unfold adds. intros H. apply Forall_forall. intros o Hin ->.
  assert (E : existsb (fun o => match o with
                                | OpAdd c => Nat.eqb c cb
                                | OpDelete _ => false
                                end) (ops r) = true).
  { apply existsb_exists. exists (OpAdd cb). split; [exact Hin |].
    apply Nat.eqb_refl. }
  congruence.
Qed.

Lemma deletes_true (cb : Ref) (r : Reaction) :
  deletes cb r = true -> In (OpDelete cb) (ops r).
Proof.
  unfold deletes. intros H. apply existsb_exists in H as (o & Hin & Ho).
  destruct o as [c | c]; [discriminate |].
  apply Nat.eqb_eq in Ho. now subst c.
Qed.

Lemma apply_ops_cons (o : SetOp) (l : list SetOp) (es : SetData) :
  apply_ops (o :: l) es = apply_ops l (apply_op es o).
Proof. reflexivity. Qed.

Lemma length_apply_ops (l : list SetOp) (es : SetData) :
  (length es <= length (apply_ops l es))%nat.
Proof.
  revert es. induction l as [| o l IH]; intros es; [cbn; lia |].
  rewrite apply_ops_cons. specialize (IH (apply_op es o)). pose proof (length_apply_op o es). lia.
Qed.

Lemma apply_ops_old (cb : Ref) (l : list SetOp) (es : SetData) (p : nat) :
  (p < length es)%nat -> nth_error (apply_ops l es) p = Some (Some cb) ->
  nth_error es p = Some (Some cb).
Proof.
  revert es. induction l as [| o l IH]; intros es Hp H; [exact H |].
  rewrite apply_ops_cons in H. pose proof (length_apply_op o es).
  apply IH in H; [| lia]. now apply apply_op_old in H.
Qed.

Lemma apply_ops_unique (cb : Ref) (l : list SetOp) (es : SetData) :
  unique cb es -> unique cb (apply_ops l es).
Proof.
  revert es. induction l as [| o l IH]; intros es H; [exact H |].
  rewrite apply_ops_cons. apply IH, apply_op_unique, H.
Qed.

Lemma apply_ops_keeps (cb : Ref) (l : list SetOp) (es : SetData) (p : nat) :
  nth_error es p = Some (Some cb) -> Forall (fun o => o <> OpDelete cb) l ->
  nth_error (apply_ops l es) p = Some (Some cb).
Proof.
  intros Hp Hl. revert es Hp. induction Hl as [| o l Ho Hl IH]; intros es Hp;
    [exact Hp |].
  rewrite apply_ops_cons. apply IH, apply_op_keeps; assumption.
Qed.

Lemma apply_ops_absent (cb : Ref) (l : list SetOp) (es : SetData) :
  has cb es = false -> Forall (fun o => o <> OpAdd cb) l ->
  has cb (apply_ops l es) = false.
Proof.
  intros H Hl. revert es H. induction Hl as [| o l Ho Hl IH]; intros es H;
    [exact H |].
  rewrite apply_ops_cons. apply IH, apply_op_absent; assumption.
Qed.

(** Operations that delete [cb] and never add it leave it out. *)
Lemma apply_ops_deleted (cb : Ref) (l : list SetOp) (es : SetData) :
  In (OpDelete cb) l -> Forall (fun o => o <> OpAdd cb) l ->
  has cb (apply_ops l es) = false.
Proof.
  intros Hin Hl. revert es Hin. induction Hl as [| o l Ho Hl IH]; intros es Hin;
    [contradiction |].
  rewrite apply_ops_cons. destruct Hin as [-> | Hin].
  - apply apply_ops_absent; [apply has_delete | exact Hl].
  - now apply IH.
Qed.

Lemma calls_to_app (cb : Ref) (a b : list (Ref * Value)) :
  calls_to cb (a ++ b) = calls_to cb a ++ calls_to cb b.
Proof. apply filter_app. Qed.

Lemma calls_to_other (cb c : Ref) (x : Value) (log : list (Ref * Value)) :
  c <> cb -> calls_to cb (log ++ [(c, x)]) = calls_to cb log.
Proof.
  intros H. rewrite calls_to_app. cbn.
  destruct (Nat.eqb_spec c cb); [contradiction | apply app_nil_r].
Qed.

Lemma calls_to_self (cb : Ref) (x : Value) (log : list (Ref * Value)) :
  calls_to cb (log ++ [(cb, x)]) = calls_to cb log ++ [(cb, x)].
Proof. rewrite calls_to_app. cbn. now rewrite Nat.eqb_refl. Qed.

(** ** Publishing a frame *)

Section Publish.

Variable react : Behaviour.

Lemma forEach_from_step (n i : nat) (arg : option Value) (es : SetData)
  (log : list (Ref * Value)) :
  forEach_from react (S n) i arg es log =
  match nth_error es i with
  | None => (es, log, Completed)
  | Some None => forEach_from react n (S i) arg es log
  | Some (Some cb) =>
    match arg with
    | None => (es, log, Threw)
    | Some x =>
      let r := react cb x log in
      if throws r then (apply_ops (ops r) es, log ++ [(cb, x)], Threw)
      else forEach_from react n (S i) arg (apply_ops (ops r) es) (log ++ [(cb, x)])
    end
  end.
Proof. cbn. destruct (nth_error es i) as [[c |] |]; reflexivity. Qed.

Lemma forEach_from_zero (i : nat) (arg : option Value) (es : SetData)
  (log : list (Ref * Value)) :
  fst (forEach_from react 0 i arg es log) = (es, log).
Proof. cbn. destruct (nth_error es i); reflexivity. Qed.

Lemma forEach_unique (cb : Ref) (n i : nat) (arg : option Value) (es : SetData)
  (log : list (Ref * Value)) :
  unique cb es -> unique cb (fst (fst (forEach_from react n i arg es log))).
Proof.
  revert i es log. induction n as [| n IH]; intros i es log Hu.
  - now rewrite forEach_from_zero.
  - rewrite forEach_from_step.
    destruct (nth_error es i) as [[c |] |]; [| now apply IH | exact Hu].
    destruct arg as [x |]; [| exact Hu]. cbv zeta.
    destruct (throws (react c x log)).
    + now apply apply_ops_unique.
    + now apply IH, apply_ops_unique.
Qed.

(** A callback that is no member and that nobody adds is not called. *)
Lemma forEach_absent (cb : Ref) (n i : nat) (arg : option Value) (es : SetData)
  (log : list (Ref * Value)) :
  (forall c y lg, adds cb (react c y lg) = false) ->
  has cb es = false ->
  calls_to cb (snd (fst (forEach_from react n i arg es log))) = calls_to cb log /\
  has cb (fst (fst (forEach_from react n i arg es log))) = false.
Proof.
  intros Hadd. revert i es log. induction n as [| n IH]; intros i es log Hes.
  - now rewrite forEach_from_zero.
  - rewrite forEach_from_step.
    destruct (nth_error es i) as [[c |] |] eqn:Ei; [| now apply IH | now split].
    destruct arg as [x |]; [| now split]. cbv zeta.
    assert (Hc : c <> cb).
    { intros ->. now apply (has_absent cb es i) in Hes. }
    assert (Hes' : has cb (apply_ops (ops (react c x log)) es) = false).
    { apply apply_ops_absent; [exact Hes | apply adds_false, Hadd]. }
    destruct (throws (react c x log)).
    + cbn [fst snd]. now rewrite calls_to_other.
    + destruct (IH (S i) _ (log ++ [(c, x)]) Hes') as [H1 H2].
      rewrite H1, calls_to_other by exact Hc. now split.
Qed.

Section Subscribed.

Variable cb : Ref.
Variable x : Value.

(** No callback unsubscribes [cb] while frame [x] is published. *)
Hypothesis kept : forall c lg, deletes cb (react c x lg) = false.

(** Once the iteration is past the entry of [cb], [cb] is not called. *)
Lemma forEach_behind (n i : nat) (es : SetData) (log : list (Ref * Value)) :
  unique cb es ->
  (exists p, (p < i)%nat /\ nth_error es p = Some (Some cb)) ->
  calls_to cb (snd (fst (forEach_from react n i (Some x) es log))) = calls_to cb log.
Proof.
  revert i es log. induction n as [| n IH]; intros i es log Hu (p & Hp & Hat).
  - now rewrite forEach_from_zero.
  - rewrite forEach_from_step.
    destruct (nth_error es i) as [[c |] |] eqn:Ei; [| | reflexivity].
    + cbv zeta.
      assert (Hc : c <> cb).
      { intros ->. specialize (Hu _ _ Hat Ei). lia. }
      assert (Hat' : nth_error (apply_ops (ops (react c x log)) es) p = Some (Some cb)).
      { apply apply_ops_keeps; [exact Hat | apply deletes_false, kept]. }
      destruct (throws (react c x log)).
      * cbn [fst snd]. now apply calls_to_other.
      * rewrite IH; [now apply calls_to_other | now apply apply_ops_unique |].
        exists p. split; [lia | exact Hat'].
    + apply IH; [exact Hu |]. exists p. split; [lia | exact Hat].
Qed.

(** One [forEach] calls [cb] at most once. *)
Lemma forEach_at_most_once (n i : nat) (es : SetData) (log : list (Ref * Value)) :
  unique cb es ->
  (forall p, (p < i)%nat -> nth_error es p <> Some (Some cb)) ->
  (length (calls_to cb (snd (fst (forEach_from react n i (Some x) es log)))) <=
   length (calls_to cb log) + 1)%nat.
Proof.
  revert i es log. induction n as [| n IH]; intros i es log Hu Hbefore.
  - rewrite forEach_from_zero. cbn [fst snd]. lia.
  - rewrite forEach_from_step.
    destruct (nth_error es i) as [[c |] |] eqn:Ei; [| | cbn [fst snd]; lia].
    + cbv zeta.
      assert (Li : (i < length es)%nat) by (apply nth_error_Some; congruence).
      destruct (Nat.eq_dec c cb) as [-> | Hc].
      * assert (Hat' : nth_error (apply_ops (ops (react cb x log)) es) i = Some (Some cb)).
        { apply apply_ops_keeps; [exact Ei | apply deletes_false, kept]. }
        destruct (throws (react cb x log)).
        -- cbn [fst snd]. rewrite calls_to_self, length_app. cbn. lia.
        -- rewrite forEach_behind.
           ++ rewrite calls_to_self, length_app. cbn. lia.
           ++ now apply apply_ops_unique.
           ++ exists i. split; [lia | exact Hat'].
      * destruct (throws (react c x log)).
        -- cbn [fst snd]. rewrite calls_to_other by exact Hc. lia.
        -- rewrite <- (calls_to_other cb c x log Hc).
           apply IH; [now apply apply_ops_unique |].
           intros p Hp Hat. apply apply_ops_old in Hat; [| lia].
           destruct (Nat.eq_dec p i) as [-> | Hne].
           ++ congruence.
           ++ apply (Hbefore p); [lia | exact Hat].
    + apply IH; [exact Hu |]. intros p Hp Hat.
      destruct (Nat.eq_dec p i) as [-> | Hne]; [congruence |].
      apply (Hbefore p); [lia | exact Hat].
Qed.

(** No other callback throws on frame [x]. *)
Hypothesis calm : forall c lg, c <> cb -> throws (react c x lg) = false.

(** A [forEach] that gets as far as the entry of [cb] calls it exactly
    once, with [x]. *)
Lemma forEach_exactly_once (n i p : nat) (es : SetData) (log : list (Ref * Value)) :
  unique cb es -> nth_error es p = Some (Some cb) ->
  (i <= p)%nat -> (p < i + n)%nat ->
  calls_to cb (snd (fst (forEach_from react n i (Some x) es log))) =
  calls_to cb log ++ [(cb, x)].
Proof.
  revert i es log. induction n as [| n IH]; intros i es log Hu Hat Hi Hn; [lia |].
  rewrite forEach_from_step.
  assert (Li : (i < length es)%nat).
  { assert (p < length es)%nat by (apply nth_error_Some; congruence). lia. }
  destruct (nth_error es i) as [[c |] |] eqn:Ei;
    [| | apply nth_error_None in Ei; lia].
  - cbv zeta. destruct (Nat.eq_dec c cb) as [-> | Hc].
    + assert (i = p) by (apply Hu; assumption). subst p.
      assert (Hat' : nth_error (apply_ops (ops (react cb x log)) es) i = Some (Some cb)).
      { apply apply_ops_keeps; [exact Ei | apply deletes_false, kept]. }
      destruct (throws (react cb x log)).
      * cbn [fst snd]. apply calls_to_self.
      * rewrite forEach_behind; [apply calls_to_self | now apply apply_ops_unique |].
        exists i. split; [lia | exact Hat'].
    + assert (Hip : i <> p) by (intros ->; congruence).
      rewrite (calm c log Hc).
      rewrite IH; [now rewrite calls_to_other | now apply apply_ops_unique | | lia | lia].
      apply apply_ops_keeps; [exact Hat | apply deletes_false, kept].
  - assert (Hip : i <> p) by (intros ->; congruence).
    apply IH; [exact Hu | exact Hat | lia | lia].
Qed.

End Subscribed.

End Publish.

(** ** Subscribers along a run *)

Section Registry.

Variable react : Behaviour.
Variable fuel : nat.

Lemma onmessage_video_frame (x : Value) (s : State) :
  fst (forEach_from react fuel 0 (Some x) (frameListenersRef s) (delivered s)) =
  (frameListenersRef (onmessage react fuel (video_frame x) s),
   delivered (onmessage react fuel (video_frame x) s)).
Proof.
  unfold onmessage, onmessage_try, video_frame, envelope, access, forEach. cbn.
  destruct (forEach_from react fuel 0 (Some x) (frameListenersRef s) (delivered s))
    as [[es log] [| |]]; reflexivity.
Qed.

(** The router changes the subscriber set and the calls only by a
    [forEach]. *)
Lemma onmessage_registry (frame : Parse) (s : State) :
  (frameListenersRef (onmessage react fuel frame s) = frameListenersRef s /\
   delivered (onmessage react fuel frame s) = delivered s) \/
  (exists arg,
    fst (forEach_from react fuel 0 arg (frameListenersRef s) (delivered s)) =
    (frameListenersRef (onmessage react fuel frame s),
     delivered (onmessage react fuel frame s))).
Proof.
  unfold onmessage, onmessage_try, access.
  destruct frame as [| msg]; [now left |].
  destruct msg as [| | b | n | t | items | fields]; try (now left).
  cbn [get]. destruct (lookup "type" fields) as [| | b | n | t | items | fs'];
    try (now left).
  cbn [tag_is]. by_tag t; try (now left).
  - right. exists (get (lookup "data" fields) "frame"). unfold forEach.
    destruct (forEach_from react fuel 0 _ (frameListenersRef s) (delivered s))
      as [[es log] [| |]]; reflexivity.
  - destruct (lookup "data" fields); now left.
Qed.

Lemma step_registry (s : State) (e : Event) :
  (frameListenersRef (step react fuel s e) = frameListenersRef s /\
   delivered (step react fuel s e) = delivered s) \/
  (exists c, e = Subscribe c /\
     frameListenersRef (step react fuel s e) = add c (frameListenersRef s) /\
     delivered (step react fuel s e) = delivered s) \/
  (exists c, e = Unsubscribe c /\
     frameListenersRef (step react fuel s e) = delete c (frameListenersRef s) /\
     delivered (step react fuel s e) = delivered s) \/
  (exists arg,
    fst (forEach_from react fuel 0 arg (frameListenersRef s) (delivered s)) =
    (frameListenersRef (step react fuel s e), delivered (step react fuel s e))).
Proof.
  unfold step. destruct (hung s); [now left |].
  destruct e.
  - now left.
  - left. unfold unmount, ws_close. cbn. destruct (wsRef s); [| now split].
    destruct (readyState _ _) as [[| | |] |]; now split.
  - left. destruct (readyState ws s) as [[| | |] |]; now split.
  - destruct (readyState ws s) as [[| | |] |]; try (now left).
    destruct (onmessage_registry frame s) as [H | H]; [now left | now do 3 right].
  - left. unfold onerror, ws_close.
    destruct (readyState ws s) as [[| | |] |]; now split.
  - left. unfold onclose.
    destruct (readyState ws s) as [[| | |] |]; try (now split);
      cbn; destruct (mountedRef s); now split.
  - left. destruct (0 <=? dt); now split.
  - left. destruct (find_timer id s) as [t |]; [| now split].
    destruct (due t <=? now s); [| now split].
    unfold run_timer, connect. destruct (action t); cbn; [now split |].
    destruct (mountedRef s); now split.
  - now left.
  - right. left. exists cb. now repeat split.
  - right. right. left. exists cb. now repeat split.
Qed.

(** In every state the client reaches, a callback has at most one entry in
    the subscriber set. *)
Lemma reachable_unique (cb : Ref) (evs : list Event) (s : State) :
  unique cb (frameListenersRef s) ->
  unique cb (frameListenersRef (run react fuel s evs)).
Proof.
  revert s. induction evs as [| e evs IH]; intros s Hu; [exact Hu |].
  rewrite run_cons. apply IH.
  destruct (step_registry s e)
    as [[-> _] | [(c & _ & -> & _) | [(c & _ & -> & _) | (arg & H)]]].
  - exact Hu.
  - now apply (apply_op_unique cb (OpAdd c)).
  - now apply (apply_op_unique cb (OpDelete c)).
  - pose proof (forEach_unique react cb fuel 0 arg _ (delivered s) Hu) as H'.
    rewrite H in H'. exact H'.
Qed.

Lemma init_unique (cb : Ref) : unique cb (frameListenersRef init).
Proof. intros [| p] q H; discriminate H. Qed.

(** A callback that is unsubscribed and never subscribed again is never
    called again. *)
Lemma absent_run (cb : Ref) (evs : list Event) (s : State) :
  (forall c y lg, adds cb (react c y lg) = false) ->
  forallb (fun e => negb (is_subscribe cb e)) evs = true ->
  has cb (frameListenersRef s) = false ->
  calls_to cb (delivered (run react fuel s evs)) = calls_to cb (delivered s).
Proof.
  intros Hadd. revert s. induction evs as [| e evs IH]; intros s Hev Hs;
    [reflexivity |].
  cbn [forallb] in Hev. apply andb_true_iff in Hev as [He Hev].
  apply negb_true_iff in He. rewrite run_cons.
  destruct (step_registry s e)
    as [[Hl Hd] | [(c & -> & Hl & Hd) | [(c & _ & Hl & Hd) | (arg & H)]]].
  - rewrite IH; [now rewrite Hd | exact Hev | now rewrite Hl].
  - rewrite IH; [now rewrite Hd | exact Hev |]. rewrite Hl.
    apply (apply_op_absent cb (OpAdd c)); [exact Hs |].
    intros [= ->]. cbn in He. now rewrite Nat.eqb_refl in He.
  - rewrite IH; [now rewrite Hd | exact Hev |]. rewrite Hl.
    apply (apply_op_absent cb (OpDelete c)); [exact Hs | discriminate].
  - destruct (forEach_absent react cb fuel 0 arg _ (delivered s) Hadd Hs) as [H1 H2].
    rewrite H in H1, H2. cbn [fst snd] in H1, H2.
    rewrite IH; [exact H1 | exact Hev | exact H2].
Qed.

Lemma has_add (cb : Ref) (es : SetData) : has cb (add cb es) = true.
Proof.
  unfold add. destruct (has cb es) eqn:E; [exact E |].
  unfold has. rewrite existsb_app. cbn. rewrite Nat.eqb_refl.
  now rewrite orb_true_r.
Qed.

Lemma add_again (cb : Ref) (es : SetData) : add cb (add cb es) = add cb es.
Proof. unfold add at 1. now rewrite has_add. Qed.

Lemma subscribe_again (cb : Ref) (n : nat) (s : State) :
  Nat.iter n (subscribeToFrames cb) (subscribeToFrames cb s) = subscribeToFrames cb s.
Proof.
  induction n as [| n IH]; [reflexivity |].
  rewrite Nat.iter_succ, IH. unfold subscribeToFrames. cbn.
  now rewrite add_again.
Qed.

Lemma length_add (cb : Ref) (es : SetData) : (length (add cb es) <= S (length es))%nat.
Proof. unfold add. destruct (has cb es); rewrite ?length_app; cbn; lia. Qed.

End Registry.






(** * Further properties of the hook *)

Section Sinks.

Variable react : Behaviour.
Variable fuel : nat.

(** What one turn of the loop can do to the sinks. *)
Lemma step_sinks_cases (s : State) (e : Event) :
  sinks (step react fuel s e) = sinks s \/
  sinks (step react fuel s e) = emptySinks \/
  (exists ws frame, e = WsMessage ws frame /\
     step react fuel s e = onmessage react fuel frame s) \/
  sinks (step react fuel s e) = setNotification None (sinks s).
Proof.
  unfold step. destruct (hung s); [now left |].
  destruct e.
  - now left.
  - left. unfold unmount, ws_close. cbn. destruct (wsRef s); [| reflexivity].
    destruct (readyState _ _) as [[| | |] |]; reflexivity.
  - left. destruct (readyState ws s) as [[| | |] |]; reflexivity.
  - destruct (readyState ws s) as [[| | |] |]; try (now left).
    right. right. left. now exists ws, frame.
  - left. unfold onerror, ws_close.
    destruct (readyState ws s) as [[| | |] |]; reflexivity.
  - left. unfold onclose.
    destruct (readyState ws s) as [[| | |] |]; try reflexivity;
      cbn; destruct (mountedRef s); reflexivity.
  - left. destruct (0 <=? dt); reflexivity.
  - destruct (find_timer id s) as [t |]; [| now left].
    destruct (due t <=? now s); [| now left].
    unfold run_timer, connect. destruct (action t); cbn.
    + now do 3 right.
    + left. destruct (mountedRef s); reflexivity.
  - right. now left.
  - now left.
  - now left.
Qed.

Lemma bounded_append_length (k : Stream) (x : Value) (prev : list Value) :
  Z.of_nat (length (bounded_append (capacity k) x prev)) <= capacity k.
Proof.
  rewrite <- (capacity_nat k) at 1.
  rewrite bounded_append_last_n by apply capacity_pos.
  rewrite last_n_length. rewrite <- (capacity_nat k) at 2. lia.
Qed.

Lemma capacity_nonneg (k : Stream) : 0 <= capacity k.
Proof. destruct k; vm_compute; discriminate. Qed.

Lemma step_within_capacity (k : Stream) (s : State) (e : Event) :
  Z.of_nat (length (contents k s)) <= capacity k ->
  Z.of_nat (length (contents k (step react fuel s e))) <= capacity k.
Proof.
  intros H.
  destruct (step_sinks_cases s e) as [E | [E | [(ws & frame & _ & E) | E]]].
  - destruct k; cbn in *; now rewrite E.
  - pose proof (capacity_nonneg k). destruct k; cbn in *; rewrite E; cbn; lia.
  - rewrite E, onmessage_contents.
    destruct (record_of k frame); [apply bounded_append_length | exact H].
  - destruct k; cbn in *; now rewrite E.
Qed.

(** Frames received on an open socket act on a view of the state one after
    the other. *)
Lemma run_messages_fold {A : Type} (view : State -> A) (upd : Parse -> A -> A)
  (ws : nat) (frames : list Parse) (s : State) :
  (forall f s0, view (onmessage react fuel f s0) = upd f (view s0)) ->
  readyState ws s = Some OPEN ->
  hung (run react fuel s (map (WsMessage ws) frames)) = false ->
  view (run react fuel s (map (WsMessage ws) frames)) =
  fold_left (fun a f => upd f a) frames (view s).
Proof.
  intros Hupd. revert s. induction frames as [| f frames IH]; intros s Hopen Hrun;
    [reflexivity |].
  cbn [map] in *. rewrite run_cons in *.
  destruct (hung s) eqn:Hs.
  { rewrite step_hung, run_hung in Hrun by assumption. congruence. }
  assert (Estep : step react fuel s (WsMessage ws f) = onmessage react fuel f s).
  { unfold step. now rewrite Hs, Hopen. }
  rewrite Estep in *.
  rewrite IH; [| unfold readyState in *; now rewrite onmessage_sockets | assumption].
  cbn [fold_left]. now rewrite Hupd.
Qed.

Lemma onmessage_slot (sl : Slot) (frame : Parse) (s : State) :
  slot_value sl (onmessage react fuel frame s) =
  match data_of (slot_tag sl) frame with
  | Some d => d
  | None => slot_value sl s
  end.
Proof.
  unfold onmessage, onmessage_try, data_of, access.
  destruct frame as [| msg]; [reflexivity |].
  destruct msg as [| | b | n | t | items | fields]; try (destruct sl; reflexivity).
  cbn [get]. destruct (lookup "type" fields) as [| | b | n | t | items | fs'];
    try (destruct sl; reflexivity).
  cbn [tag_is]. by_tag t; try (destruct sl; reflexivity).
  - pose proof (forEach_sinks react fuel (get (lookup "data" fields) "frame") s) as H.
    destruct (forEach react fuel (get (lookup "data" fields) "frame") s);
      destruct H as [H _]; destruct sl; cbn in *; now rewrite H.
  - destruct (lookup "data" fields); destruct sl; reflexivity.
  - destruct sl; cbn [slot_tag]; rewrite ?E, ?E4, ?E5; reflexivity.
Qed.

Lemma last_cons_default {A : Type} (x a b : A) (l : list A) :
  last (x :: l) a = last (x :: l) b.
Proof.
  revert x. induction l as [| y l IH]; intros x; [reflexivity |].
  change (last (y :: l) a = last (y :: l) b). apply IH.
Qed.

Lemma fold_overwrite (label : string) (frames : list Parse) (v : Value) :
  fold_left (fun a f => match data_of label f with Some d => d | None => a end)
    frames v =
  last (datas_of label frames) v.
Proof.
  revert v. induction frames as [| f frames IH]; intros v; [reflexivity |].
  cbn [fold_left datas_of]. rewrite IH.
  destruct (data_of label f) as [d |]; [| reflexivity].
  destruct (datas_of label frames) as [| d' l]; [reflexivity |].
  change (last (d :: d' :: l) v) with (last (d' :: l) v).
  apply last_cons_default.
Qed.

End Sinks.

(** X1.  Whatever the client has been through, no bounded stream is longer than
    its capacity. *)
Theorem stream_within_capacity
  (react : Behaviour) (fuel : nat) (evs : list Event) (k : Stream) :
  Z.of_nat (length (contents k (run react fuel init evs))) <= capacity k.
Proof.
  assert (H : forall s, Z.of_nat (length (contents k s)) <= capacity k ->
            Z.of_nat (length (contents k (run react fuel s evs))) <= capacity k).
  { induction evs as [| e evs IH]; intros s Hs; [exact Hs |].
    rewrite run_cons. apply IH, step_within_capacity, Hs. }
  apply H. destruct k; vm_compute; discriminate.
Qed.

(** X2.  A latest-value slot (telemetry, detection summary, source progress)
    holds the data of the last envelope of its type among the frames
    received, and keeps its value when there was none. *)
Theorem slot_holds_last_envelope
  (react : Behaviour) (fuel : nat) (sl : Slot) (ws : nat)
  (frames : list Parse) (s : State) :
  readyState ws s = Some OPEN ->
  let s' := run react fuel s (map (WsMessage ws) frames) in
  hung s' = false ->
  slot_value sl s' = last (datas_of (slot_tag sl) frames) (slot_value sl s).
Proof.
  intros Hopen s' Hrun. subst s'.
  rewrite (run_messages_fold react fuel (slot_value sl)
             (fun f a => match data_of (slot_tag sl) f with
                         | Some d => d
                         | None => a
                         end) ws frames s); auto.
  - apply fold_overwrite.
  - intros f s0. apply onmessage_slot.
Qed.

Lemma slot_holds_last_envelope_witness :
  let s := run passive 0 init [Mount; WsOpen 0] in
  let frames := [envelope "detection_summary" (JNum 1);
                 envelope "telemetry" (JNum 2);
                 envelope "detection_summary" (JNum 3);
                 SyntaxError] in
  slot_value DetectionSlot (run passive 0 s (map (WsMessage 0) frames)) = JNum 3 /\
  slot_value ProgressSlot (run passive 0 s (map (WsMessage 0) frames)) = JNull.
Proof.
  intros s frames. split.
  - apply (slot_holds_last_envelope passive 0 DetectionSlot 0 frames s); reflexivity.
  - apply (slot_holds_last_envelope passive 0 ProgressSlot 0 frames s); reflexivity.
Defined.

(** ** The two delivery paths *)

Section Paths.

Variable react : Behaviour.
Variable fuel : nat.

Lemma no_member_entries (es : SetData) :
  elements es = [] -> forall j c, nth_error es j <> Some (Some c).
Proof.
  induction es as [| [c0 |] es IH]; intros He j c.
  - destruct j; discriminate.
  - discriminate He.
  - destruct j as [| j]; [discriminate | apply (IH He j c)].
Qed.

(** A [forEach] over a set without members calls nothing and returns. *)
Lemma forEach_from_no_member (n i : nat) (arg : option Value) (es : SetData)
  (log : list (Ref * Value)) :
  (forall j c, nth_error es j <> Some (Some c)) ->
  (length es <= i + n)%nat ->
  forEach_from react n i arg es log = (es, log, Completed).
Proof.
  intros Hes. revert i. induction n as [| n IH]; intros i Hn.
  - cbn. destruct (nth_error es i) eqn:E; [| reflexivity].
    assert (i < length es)%nat by (apply nth_error_Some; congruence). lia.
  - rewrite forEach_from_step.
    destruct (nth_error es i) as [[c |] |] eqn:E.
    + now destruct (Hes i c).
    + apply IH. lia.
    + reflexivity.
Qed.

Lemma video_frame_no_subscriber (frame : Parse) (s : State) :
  has_tag "video_frame" frame = true ->
  elements (frameListenersRef s) = [] ->
  (length (frameListenersRef s) <= fuel)%nat ->
  onmessage react fuel frame s = s.
Proof.
  unfold has_tag, onmessage, onmessage_try, access.
  destruct frame as [| msg]; [discriminate |].
  destruct msg as [| | b | n | t | items | fields]; try discriminate.
  cbn [get]. destruct (lookup "type" fields) as [| | b | n | t | items | fs'];
    try discriminate.
  cbn [tag_is]. intros H He Hfuel. apply String.eqb_eq in H. subst t. cbn.
  unfold forEach.
  rewrite forEach_from_no_member by (try apply no_member_entries; auto; lia).
  destruct s; reflexivity.
Qed.

Lemma other_frame_subscribers (frame : Parse) (s : State) :
  has_tag "video_frame" frame = false ->
  frameListenersRef (onmessage react fuel frame s) = frameListenersRef s /\
  delivered (onmessage react fuel frame s) = delivered s /\
  hung (onmessage react fuel frame s) = hung s.
Proof.
  unfold has_tag, onmessage, onmessage_try, access.
  destruct frame as [| msg]; [now repeat split |].
  destruct msg as [| | b | n | t | items | fields]; try (now repeat split).
  cbn [get]. destruct (lookup "type" fields) as [| | b | n | t | items | fs'];
    try (now repeat split).
  cbn [tag_is]. intros H. by_tag t; try discriminate H; try (now repeat split).
  destruct (lookup "data" fields); now repeat split.
Qed.

End Paths.

(** X3.  Only video frames reach the subscribers: a frame of any other kind,
    or one that is not an envelope, makes no call, leaves the subscriber set
    as it is and cannot hang the handler.  And the handler itself stores
    nothing from a video frame: when the set has no member, a video-frame
    envelope leaves the whole state of the client as it was. *)
Theorem video_path_apart
  (react : Behaviour) (fuel : nat) (frame : Parse) (s : State) :
  let s' := onmessage react fuel frame s in
  (has_tag "video_frame" frame = false ->
   frameListenersRef s' = frameListenersRef s /\ delivered s' = delivered s /\
   hung s' = hung s) /\
  (has_tag "video_frame" frame = true ->
   elements (frameListenersRef s) = [] ->
   (length (frameListenersRef s) <= fuel)%nat ->
   s' = s).
Proof.
  split; [apply other_frame_subscribers | apply video_frame_no_subscriber].
Qed.

(** X3 on a client whose only subscriber has unsubscribed, with telemetry
    in its sinks: a status envelope adds no call, a video frame changes
    nothing. *)
Lemma video_path_apart_witness :
  let s := run passive 3 init [Mount; WsOpen 0; Subscribe 4; Unsubscribe 4;
                               WsMessage 0 (envelope "telemetry" (JNum 1))] in
  delivered (onmessage passive 3 (envelope "status" (JObj [])) s) = delivered s /\
  onmessage passive 3 (video_frame (JStr "f")) s = s.
Proof.
  intros s. split.
  - destruct (video_path_apart passive 3 (envelope "status" (JObj [])) s) as [H _].
    apply H. reflexivity.
  - destruct (video_path_apart passive 3 (video_frame (JStr "f")) s) as [_ H].
    apply H; [reflexivity | reflexivity | cbn; lia].
Defined.

(** ** Envelopes without a payload *)

Section Payload.

Variable react : Behaviour.

Lemma forEach_from_no_arg (n i : nat) (es : SetData) (log : list (Ref * Value)) :
  (length es <= i + n)%nat ->
  fst (forEach_from react n i None es log) = (es, log) /\
  snd (forEach_from react n i None es log) <> Exhausted.
Proof.
  revert i. induction n as [| n IH]; intros i Hn.
  - cbn. destruct (nth_error es i) eqn:E.
    + assert (i < length es)%nat by (apply nth_error_Some; congruence). lia.
    + split; [reflexivity | discriminate].
  - rewrite forEach_from_step.
    destruct (nth_error es i) as [[c |] |].
    + split; [reflexivity | discriminate].
    + apply IH. lia.
    + split; [reflexivity | discriminate].
Qed.

End Payload.

(** X4.  A status or video-frame envelope whose data is [null] or missing is
    dropped: reading its fields throws, the handler catches the error, and
    the state is what it was (no notification, no timer, no call to a
    subscriber). *)
Theorem envelope_without_payload_dropped
  (react : Behaviour) (fuel : nat) (d : Value) (s : State) :
  nullish d = true ->
  (length (frameListenersRef s) <= fuel)%nat ->
  onmessage react fuel (envelope "status" d) s = s /\
  onmessage react fuel (envelope "video_frame" d) s = s /\
  onmessage react fuel (Parsed (JObj [("type", JStr "status")])) s = s /\
  onmessage react fuel (Parsed (JObj [("type", JStr "video_frame")])) s = s.
Proof.
  intros Hd Hfuel.
  assert (Hv : forall v, nullish v = true ->
            onmessage react fuel (envelope "video_frame" v) s = s).
  { intros v Hn. unfold onmessage, onmessage_try, envelope, access, forEach. cbn.
    assert (E : get v "frame" = None) by (destruct v; try discriminate; reflexivity).
    rewrite E.
    destruct (forEach_from_no_arg react fuel 0 (frameListenersRef s) (delivered s))
      as [H1 H2]; [lia |].
    destruct (forEach_from react fuel 0 None (frameListenersRef s) (delivered s))
      as [[es log] o]. cbn in H1, H2. injection H1 as -> ->.
    destruct o; [| | contradiction]; destruct s; reflexivity. }
  split; [| split; [| split]].
  - destruct d; try discriminate; reflexivity.
  - now apply Hv.
  - reflexivity.
  - apply (Hv JUndefined). reflexivity.
Qed.

Lemma envelope_without_payload_dropped_witness :
  let s := run passive 2 init [Mount; WsOpen 0; Subscribe 1] in
  onmessage passive 2 (envelope "status" JNull) s = s /\
  onmessage passive 2 (envelope "video_frame" JNull) s = s.
Proof.
  intros s.
  destruct (envelope_without_payload_dropped passive 2 JNull s) as (H1 & H2 & _);
    [reflexivity | cbn; lia |].
  split; [exact H1 | exact H2].
Defined.

(** ** Errors and closes *)

Lemma update_update {A : Type} (i : nat) (x y : A) (l : list A) :
  update i y (update i x l) = update i y l.
Proof.
  revert i. induction l as [| z l IH]; intros [| i]; cbn; try reflexivity.
  now rewrite IH.
Qed.

Lemma readyState_update (ws : nat) (st st0 : ReadyState) (s : State) :
  readyState ws s = Some st0 ->
  readyState ws (setSockets (update ws st (sockets s)) s) = Some st.
Proof. unfold readyState. cbn. apply nth_error_update. Qed.

(** X5.  An error on a socket only closes it: the error followed by the close
    event of the socket leaves the client where the close event alone would
    have. *)
Theorem error_then_close
  (react : Behaviour) (fuel : nat) (ws : nat) (s : State) :
  run react fuel s [WsError ws; WsClose ws] = step react fuel s (WsClose ws).
Proof.
  cbn [run fold_left]. unfold step at 2 3.
  destruct (hung s) eqn:Hh; [now rewrite step_hung |].
  unfold onerror, ws_close.
  destruct (readyState ws s) as [st |] eqn:E.
  - destruct st; unfold step; rewrite ?Hh; cbn [hung setSockets];
      rewrite ?Hh, ?E, ?(readyState_update ws CLOSING _ s E);
      cbn [sockets setSockets]; rewrite ?update_update; reflexivity.
  - unfold step. now rewrite Hh, E.
Qed.

(** ** Timers *)

Section Timers.

Variable react : Behaviour.
Variable fuel : nat.

Lemma onmessage_timers (frame : Parse) (s : State) :
  let s' := onmessage react fuel frame s in
  (timers s' = timers s /\ nextTimer s' = nextTimer s /\
   (has_tag "status" frame = false ->
    notification (sinks s') = notification (sinks s))) \/
  (has_tag "status" frame = true /\
   timers s' = timers s ++ [mkTimer (nextTimer s) (now s + 5000) ClearNotification] /\
   nextTimer s' = S (nextTimer s)).
Proof.
  unfold has_tag, onmessage, onmessage_try, access.
  destruct frame as [| msg]; [now left |].
  destruct msg as [| | b | n | t | items | fields]; try (now left).
  cbn [get]. destruct (lookup "type" fields) as [| | b | n | t | items | fs'];
    try (now left).
  cbn [tag_is]. by_tag t; try (now left).
  - left.
    pose proof (forEach_sinks react fuel (get (lookup "data" fields) "frame") s) as H.
    destruct (forEach react fuel (get (lookup "data" fields) "frame") s);
      destruct H as (-> & _ & _ & _ & _ & _ & -> & -> & _); now repeat split.
  - destruct (lookup "data" fields);
      first [right; now repeat split | left; repeat split; discriminate].
Qed.

(** What one turn of the loop can do to the clock and to the timers. *)
Lemma step_timers_cases (s : State) (e : Event) :
  let s' := step react fuel s e in
  (now s' = now s /\ timers s' = timers s /\ nextTimer s' = nextTimer s) \/
  (exists dt, e = Elapse dt /\ 0 <= dt /\ now s' = now s + dt /\
     timers s' = timers s /\ nextTimer s' = nextTimer s) \/
  (exists a d, now s' = now s /\
     timers s' = timers s ++ [mkTimer (nextTimer s) (now s + d) a] /\
     nextTimer s' = S (nextTimer s) /\ 0 < d <= horizon a) \/
  (exists id t, e = TimerFire id /\ find_timer id s = Some t /\ due t <= now s /\
     now s' = now s /\ nextTimer s' = nextTimer s /\
     timers s' = filter (fun u => negb (Nat.eqb (timer_id u) id)) (timers s)).
Proof.
  unfold step. destruct (hung s); [now left |].
  destruct e.
  - left. unfold mount, connect. cbn. now repeat split.
  - left. unfold unmount, ws_close. cbn. destruct (wsRef s); [| now repeat split].
    destruct (readyState _ _) as [[| | |] |]; now repeat split.
  - left. destruct (readyState ws s) as [[| | |] |]; now repeat split.
  - destruct (readyState ws s) as [[| | |] |]; try (left; now repeat split).
    destruct (onmessage_connection react fuel frame s)
      as (_ & _ & _ & _ & _ & Hnow & _).
    destruct (onmessage_timers frame s) as [(Ht & Hn & _) | (_ & Ht & Hn)].
    + left. now repeat split.
    + right. right. left. exists ClearNotification, 5000. cbn.
      repeat split; auto; lia.
  - left. unfold onerror, ws_close.
    destruct (readyState ws s) as [[| | |] |]; now repeat split.
  - pose proof (reconnect_delay_pos (retriesRef s)) as Hpos.
    assert (Hcap : reconnect_delay (retriesRef s) <= 30000)
      by (unfold reconnect_delay; lia).
    unfold onclose.
    destruct (readyState ws s) as [[| | |] |]; try (left; now repeat split);
      cbn; destruct (mountedRef s); cbn; try (left; now repeat split);
      right; right; left; exists Reconnect, (reconnect_delay (retriesRef s));
      cbn; repeat split; auto.
  - destruct (0 <=? dt) eqn:E; [| left; now repeat split].
    right. left. exists dt. apply Z.leb_le in E. now repeat split.
  - destruct (find_timer id s) as [t |] eqn:Ef; [| left; now repeat split].
    destruct (due t <=? now s) eqn:Ed; [| left; now repeat split].
    do 3 right. exists id, t. apply Z.leb_le in Ed.
    unfold run_timer, connect, remove_timer.
    destruct (action t); cbn; [now repeat split |].
    destruct (mountedRef s); now repeat split.
  - left. now repeat split.
  - left. now repeat split.
  - left. now repeat split.
Qed.

Lemma step_now_monotone (s : State) (e : Event) :
  now s <= now (step react fuel s e).
Proof.
  destruct (step_timers_cases s e)
    as [(H & _) | [(dt & _ & Hd & H & _) | [(a & d & H & _) | (id & t & _ & _ & _ & H & _)]]];
    lia.
Qed.

Lemma run_now_monotone (evs : list Event) (s : State) :
  now s <= now (run react fuel s evs).
Proof.
  revert s. induction evs as [| e evs IH]; intros s; [cbn; lia |].
  rewrite run_cons. pose proof (step_now_monotone s e).
  specialize (IH (step react fuel s e)). lia.
Qed.

Lemma Forall_filter_keep {A : Type} (P : A -> Prop) (f : A -> bool) (l : list A) :
  Forall P l -> Forall P (filter f l).
Proof.
  intros H. apply Forall_forall. intros x Hx. apply filter_In in Hx as [Hx _].
  rewrite Forall_forall in H. auto.
Qed.

Lemma step_timers_soon (s : State) (e : Event) :
  timers_soon s -> timers_soon (step react fuel s e).
Proof.
  unfold timers_soon. intros H.
  destruct (step_timers_cases s e)
    as [(Hn & Ht & _) | [(dt & _ & Hd & Hn & Ht & _) |
        [(a & d & Hn & Ht & _ & Hd) | (id & t & _ & _ & _ & Hn & _ & Ht)]]];
    rewrite Ht, Hn.
  - exact H.
  - eapply Forall_impl; [| exact H]. cbn. intros; lia.
  - apply Forall_app. split; [exact H |]. constructor; [cbn; lia | constructor].
  - now apply Forall_filter_keep.
Qed.

End Timers.

(** X6.  The delay before a reconnection is at least 1 second and at most 30,
    and does not shrink as retries accumulate.  Whatever the client has been
    through, every pending timer is due soon: a reconnection within 30
    seconds of the present time, the clearing of the notification within
    5. *)
Theorem timers_due_soon
  (react : Behaviour) (fuel : nat) (evs : list Event) (r r' : nat) :
  1000 <= reconnect_delay r <= 30000 /\
  ((r <= r')%nat -> reconnect_delay r <= reconnect_delay r') /\
  Forall (fun t => due t <= now (run react fuel init evs) + horizon (action t))
    (timers (run react fuel init evs)).
Proof.
  split; [| split].
  - unfold reconnect_delay.
    assert (1 <= 2 ^ Z.of_nat r) by (apply Z.pow_le_mono_r with (b := 0); lia).
    lia.
  - intros Hr. unfold reconnect_delay.
    assert (2 ^ Z.of_nat r <= 2 ^ Z.of_nat r') by (apply Z.pow_le_mono_r; lia).
    lia.
  - assert (H : forall s, timers_soon s -> timers_soon (run react fuel s evs)).
    { induction evs as [| e evs IH]; intros s Hs; [exact Hs |].
      rewrite run_cons. apply IH, step_timers_soon, Hs. }
    apply H. constructor.
Qed.

Lemma timers_due_soon_witness :
  reconnect_delay 2 <= reconnect_delay 9 /\
  Forall (fun t => due t <= now (run passive 0 init [Mount; WsClose 0; Elapse 400])
                             + horizon (action t))
    (timers (run passive 0 init [Mount; WsClose 0; Elapse 400])).
Proof.
  destruct (timers_due_soon passive 0 [Mount; WsClose 0; Elapse 400] 2 9)
    as (_ & H1 & H2).
  split; [apply H1; lia | exact H2].
Defined.

(** ** How long a notification stays *)

Section Notification.

Variable react : Behaviour.
Variable fuel : nat.

(** An event that is neither a status envelope nor a reset adds no
    auto-clear timer, and empties the notification only by running one that
    is due. *)
Lemma quiet_step (s : State) (e : Event) :
  keeps_notification e = true ->
  (forall t, In t (timers (step react fuel s e)) -> is_clear t = true ->
     In t (timers s)) /\
  (notification (sinks (step react fuel s e)) = notification (sinks s) \/
   exists t, In t (timers s) /\ is_clear t = true /\ due t <= now s).
Proof.
  intros He. unfold step. destruct (hung s); [auto |].
  destruct e; try discriminate He.
  - unfold mount, connect. cbn. auto.
  - unfold unmount, ws_close. cbn. destruct (wsRef s); [| auto].
    destruct (readyState _ _) as [[| | |] |]; auto.
  - destruct (readyState ws s) as [[| | |] |]; auto.
  - destruct (readyState ws s) as [[| | |] |]; auto.
    cbn in He. apply negb_true_iff in He.
    destruct (onmessage_timers react fuel frame s) as [(Ht & _ & Hn) | (Hs & _)];
      [| congruence].
    rewrite Ht. auto.
  - unfold onerror, ws_close.
    destruct (readyState ws s) as [[| | |] |]; auto.
  - unfold onclose.
    destruct (readyState ws s) as [[| | |] |]; auto;
      cbn; destruct (mountedRef s); cbn; auto;
      (split; [| auto]); intros t Ht Hc; apply in_app_or in Ht as [Ht | [<- | []]];
      auto; discriminate Hc.
  - destruct (0 <=? dt); auto.
  - destruct (find_timer id s) as [t |] eqn:Ef; [| auto].
    destruct (due t <=? now s) eqn:Ed; [| auto].
    apply Z.leb_le in Ed. apply find_some in Ef as [Hin _].
    assert (Hsub : forall u,
              In u (filter (fun v => negb (Nat.eqb (timer_id v) id)) (timers s)) ->
              In u (timers s)).
    { intros u Hu. now apply filter_In in Hu as [Hu _]. }
    unfold run_timer, connect, remove_timer, is_clear.
    destruct (action t) eqn:Ea; cbn.
    + split; [intros u Hu _; auto |]. right. exists t. unfold is_clear.
      now rewrite Ea.
    + destruct (mountedRef s); cbn; split; auto.
  - auto.
  - auto.
Qed.

Lemma notification_kept (evs : list Event) (s : State) (limit : Z) :
  forallb keeps_notification evs = true ->
  now (run react fuel s evs) <= limit ->
  clear_after limit s ->
  notification (sinks (run react fuel s evs)) = notification (sinks s).
Proof.
  revert s. induction evs as [| e evs IH]; intros s Hev Hnow Hclear; [reflexivity |].
  cbn [forallb] in Hev. apply andb_true_iff in Hev as [He Hev].
  rewrite run_cons in *.
  destruct (quiet_step s e He) as [Hsub Hnote].
  pose proof (step_now_monotone react fuel s e) as M1.
  pose proof (run_now_monotone react fuel evs (step react fuel s e)) as M2.
  unfold clear_after in *. rewrite Forall_forall in Hclear.
  rewrite IH; auto.
  - destruct Hnote as [Hnote | (t & Hin & Hc & Hd)]; [exact Hnote |].
    specialize (Hclear t Hin Hc). lia.
  - apply Forall_forall. intros t Hin Hc. apply Hclear; auto.
Qed.

End Notification.

(** X7.  A notification stays as it is until an auto-clear timer is due: along
    events that are neither status envelopes nor resets, as long as the
    clock has not reached the due time of any auto-clear timer that was
    pending, the notification is unchanged.  In particular a status posted
    while no auto-clear timer is pending stays for the 5 seconds until its
    own timer is due. *)
Theorem notification_stays
  (react : Behaviour) (fuel : nat) (evs : list Event) (s : State) :
  forallb keeps_notification evs = true ->
  Forall (fun t => is_clear t = true -> now (run react fuel s evs) < due t) (timers s) ->
  notification (sinks (run react fuel s evs)) = notification (sinks s).
Proof.
  intros Hev Hclear.
  apply (notification_kept react fuel evs s (now (run react fuel s evs)));
    [exact Hev | lia | exact Hclear].
Qed.

Lemma notification_stays_witness :
  let post := WsMessage 0
    (envelope "status" (JObj [("status", JStr "info"); ("message", JStr "A")])) in
  let s := run passive 0 init [Mount; WsOpen 0; Elapse 700; post] in
  let evs := [Elapse 2000; WsMessage 0 (envelope "telemetry" (JNum 1));
              WsClose 0; Elapse 1000; TimerFire 1; Elapse 1999; TimerFire 0] in
  now (run passive 0 s evs) = 5699 /\
  notification (sinks (run passive 0 s evs)) =
    Some (mkNotification (JStr "info") (JStr "A") JUndefined).
Proof.
  intros post s evs. split; [reflexivity |].
  change (Some (mkNotification (JStr "info") (JStr "A") JUndefined))
    with (notification (sinks s)).
  apply (notification_stays passive 0 evs s); [reflexivity |].
  constructor; [intros _; vm_compute; reflexivity | constructor].
Defined.

(** ** Order of delivery and members of the subscriber set *)

Lemma skipn_nth_error {A : Type} (i : nat) (e : A) (l : list A) :
  nth_error l i = Some e -> skipn i l = e :: skipn (S i) l.
Proof.
  revert i. induction l as [| y l IH]; intros [| i] H; cbn in *; try discriminate.
  - now injection H as ->.
  - now apply IH.
Qed.

Lemma elements_app (a b : SetData) : elements (a ++ b) = elements a ++ elements b.
Proof.
  induction a as [| [c |] a IH]; cbn; [reflexivity | now rewrite IH | exact IH].
Qed.

Lemma has_elements (cb : Ref) (es : SetData) :
  has cb es = true <-> In cb (elements es).
Proof.
  induction es as [| [c |] es IH]; cbn.
  - split; [discriminate | contradiction].
  - rewrite orb_true_iff, Nat.eqb_eq, IH. tauto.
  - exact IH.
Qed.

Lemma elements_delete (cb : Ref) (es : SetData) :
  elements (delete cb es) = filter (fun c => negb (Nat.eqb c cb)) (elements es).
Proof.
  induction es as [| e es IH]; [reflexivity |].
  change (delete cb (e :: es)) with ((if same cb e then None else e) :: delete cb es).
  destruct e as [c |]; cbn [same elements]; [| exact IH].
  cbn [filter]. destruct (Nat.eqb c cb); cbn [elements negb]; now rewrite IH.
Qed.

Lemma filter_absent (cb : Ref) (l : list Ref) :
  ~ In cb l -> filter (fun c => negb (Nat.eqb c cb)) l = l.
Proof.
  induction l as [| c l IH]; intros H; [reflexivity |].
  cbn. destruct (Nat.eqb_spec c cb) as [-> | Hc].
  - exfalso. apply H. now left.
  - cbn. rewrite IH; [reflexivity |]. intros Hin. apply H. now right.
Qed.

Lemma unique_tail (cb : Ref) (e : option Ref) (es : SetData) :
  unique cb (e :: es) -> unique cb es.
Proof.
  intros H p q Hp Hq. specialize (H (S p) (S q) Hp Hq). lia.
Qed.

Lemma unique_NoDup (es : SetData) :
  (forall cb, unique cb es) -> NoDup (elements es).
Proof.
  induction es as [| [c |] es IH]; intros H; cbn.
  - constructor.
  - constructor.
    + intros Hin. apply has_elements, has_at in Hin as (p & Hp).
      specialize (H c 0%nat (S p) eq_refl Hp). discriminate.
    + apply IH. intros cb. eapply unique_tail, H.
  - apply IH. intros cb. eapply unique_tail, H.
Qed.

Section Order.

Variable react : Behaviour.

Lemma forEach_quiet (x : Value) (n i : nat) (es : SetData) (log : list (Ref * Value)) :
  (forall c lg, react c x lg = quiet) ->
  (length es <= i + n)%nat ->
  forEach_from react n i (Some x) es log =
  (es, log ++ map (fun c => (c, x)) (elements (skipn i es)), Completed).
Proof.
  intros Hq. revert i log. induction n as [| n IH]; intros i log Hn.
  - cbn. rewrite skipn_all2 by lia.
    destruct (nth_error es i) eqn:E.
    + assert (i < length es)%nat by (apply nth_error_Some; congruence). lia.
    + cbn. now rewrite app_nil_r.
  - rewrite forEach_from_step.
    destruct (nth_error es i) as [[c |] |] eqn:E.
    + rewrite (skipn_nth_error i _ es E), Hq. cbn.
      rewrite IH by lia. now rewrite <- app_assoc.
    + rewrite (skipn_nth_error i _ es E). cbn. apply IH. lia.
    + apply nth_error_None in E. rewrite skipn_all2 by lia. cbn.
      now rewrite app_nil_r.
Qed.

End Order.

(** X8.  A frame is handed to the subscribers in the order of their
    subscriptions, once each: when the callbacks leave the set alone and do
    not throw, the calls made for a video frame are the members of the set,
    in insertion order, each with the frame; the set is unchanged and the
    handler returns. *)
Theorem publish_in_subscription_order
  (react : Behaviour) (fuel : nat) (x : Value) (s : State) :
  (forall c lg, react c x lg = quiet) ->
  (length (frameListenersRef s) <= fuel)%nat ->
  let s' := onmessage react fuel (video_frame x) s in
  delivered s' =
    delivered s ++ map (fun c => (c, x)) (elements (frameListenersRef s)) /\
  frameListenersRef s' = frameListenersRef s /\
  hung s' = hung s /\ sinks s' = sinks s.
Proof.
  intros Hq Hfuel.
  unfold onmessage, onmessage_try, video_frame, envelope, access, forEach. cbn.
  rewrite (forEach_quiet react x fuel 0 _ _ Hq) by lia. cbn.
  repeat split.
Qed.

Lemma publish_in_subscription_order_witness :
  let s := run passive 4 init [Mount; WsOpen 0; Subscribe 5; Subscribe 3;
                               Unsubscribe 5; Subscribe 8; Subscribe 5] in
  delivered (onmessage passive 4 (video_frame (JStr "f")) s) =
    [(3%nat, JStr "f"); (8%nat, JStr "f"); (5%nat, JStr "f")].
Proof.
  intros s.
  destruct (publish_in_subscription_order passive 4 (JStr "f") s) as [H _];
    [reflexivity | cbn; lia |].
  exact H.
Defined.

(** X9.  The subscriber set behaves as a set kept in insertion order.  In every
    state the client reaches its members are distinct.  Subscribing a new
    callback puts it last, subscribing a member changes nothing, and
    unsubscribing removes the callback and nothing else; so a subscription
    followed by its unsubscription gives back the members there were. *)
Theorem subscriber_set_members
  (react : Behaviour) (fuel : nat) (evs : list Event) (cb : Ref) :
  let s := run react fuel init evs in
  let members := fun s0 => elements (frameListenersRef s0) in
  NoDup (members s) /\
  members (subscribeToFrames cb s) =
    (if has cb (frameListenersRef s) then members s else members s ++ [cb]) /\
  members (unsubscribe cb s) = filter (fun c => negb (Nat.eqb c cb)) (members s) /\
  (has cb (frameListenersRef s) = false ->
   members (unsubscribe cb (subscribeToFrames cb s)) = members s).
Proof.
  intros s members. subst members. cbn beta.
  assert (Hadd : elements (add cb (frameListenersRef s)) =
            if has cb (frameListenersRef s) then elements (frameListenersRef s)
            else elements (frameListenersRef s) ++ [cb]).
  { unfold add. destruct (has cb (frameListenersRef s)); [reflexivity |].
    now rewrite elements_app. }
  split; [| split; [| split]].
  - apply unique_NoDup. intros c. apply reachable_unique, init_unique.
  - exact Hadd.
  - apply elements_delete.
  - intros Hhas. unfold unsubscribe, subscribeToFrames.
    cbn [frameListenersRef setListeners].
    rewrite elements_delete, Hadd, Hhas, filter_app. cbn [filter].
    rewrite Nat.eqb_refl. cbn [negb]. rewrite app_nil_r.
    apply filter_absent. intros Hin. apply has_elements in Hin. congruence.
Qed.

Lemma subscriber_set_members_witness :
  let s := run passive 4 init [Mount; Subscribe 5; Subscribe 3] in
  elements (frameListenersRef (unsubscribe 9 (subscribeToFrames 9 s))) =
  elements (frameListenersRef s).
Proof.
  intros s.
  destruct (subscriber_set_members passive 4 [Mount; Subscribe 5; Subscribe 3] 9)
    as (_ & _ & _ & H).
  apply H. reflexivity.
Defined.

(** ** One connection at a time *)

Lemma repeat_snoc {A : Type} (x : A) (n : nat) :
  repeat x (S n) = repeat x n ++ [x].
Proof. induction n as [| n IH]; [reflexivity |]. cbn in *. now rewrite <- IH. Qed.

Lemma nth_error_line (n ws : nat) (st st' : ReadyState) :
  nth_error (repeat CLOSED n ++ [st]) ws = Some st' ->
  st' <> CLOSED -> ws = n /\ st' = st.
Proof.
  intros H Hne.
  destruct (Nat.lt_ge_cases ws n) as [L | L].
  - rewrite nth_error_app1 in H by (rewrite repeat_length; exact L).
    apply nth_error_In, repeat_spec in H. congruence.
  - rewrite nth_error_app2 in H by (rewrite repeat_length; exact L).
    rewrite repeat_length in H.
    destruct (ws - n)%nat as [| d] eqn:E; cbn in H.
    + injection H as <-. split; [lia | reflexivity].
    + destruct d; discriminate.
Qed.

Lemma update_line (n : nat) (st x : ReadyState) :
  update n x (repeat CLOSED n ++ [st]) = repeat CLOSED n ++ [x].
Proof. induction n as [| n IH]; cbn; [reflexivity | now rewrite IH]. Qed.

Lemma filter_line (n : nat) (st : ReadyState) :
  filter not_closed (repeat CLOSED n ++ [st]) = if not_closed st then [st] else [].
Proof.
  induction n as [| n IH]; cbn; [destruct (not_closed st); reflexivity | exact IH].
Qed.

Lemma NoDup_ids_filter (f : Timer -> bool) (l : list Timer) :
  NoDup (map timer_id l) -> NoDup (map timer_id (filter f l)).
Proof.
  induction l as [| t l IH]; cbn; intros H; [constructor |].
  inversion H as [| ? ? Hn Hr]; subst.
  destruct (f t); cbn; [constructor |]; auto.
  intros Hin. apply Hn. apply in_map_iff in Hin as (u & Hu & Hin).
  apply filter_In in Hin as [Hin _]. apply in_map_iff. eauto.
Qed.

Lemma same_id_same_timer (l : list Timer) (t u : Timer) :
  NoDup (map timer_id l) -> In t l -> In u l -> timer_id t = timer_id u -> t = u.
Proof.
  induction l as [| v l IH]; cbn; intros H Ht Hu E; [contradiction |].
  inversion H as [| ? ? Hn Hr]; subst.
  destruct Ht as [-> | Ht], Hu as [-> | Hu]; auto.
  - exfalso. apply Hn. rewrite E. now apply in_map.
  - exfalso. apply Hn. rewrite <- E. now apply in_map.
Qed.

Lemma fresh_snoc (l : list Timer) (t : Timer) (id : nat) :
  Forall (fun u => (timer_id u < id)%nat) l -> timer_id t = id ->
  NoDup (map timer_id l) ->
  Forall (fun u => (timer_id u < S id)%nat) (l ++ [t]) /\
  NoDup (map timer_id (l ++ [t])).
Proof.
  intros Hf Ht Hn. split.
  - apply Forall_app. split.
    + eapply Forall_impl; [| exact Hf]. cbn. intros; lia.
    + constructor; [lia | constructor].
  - rewrite map_app. cbn. apply NoDup_app; [exact Hn | repeat constructor; auto |].
    intros a Ha [<- | []]. apply in_map_iff in Ha as (u & Hu & Hin).
    rewrite Forall_forall in Hf. specialize (Hf u Hin). lia.
Qed.

Lemma filter_filter_keep {A : Type} (f g : A -> bool) (l : list A) :
  (forall x, In x l -> f x = true -> g x = true) ->
  filter f (filter g l) = filter f l.
Proof.
  induction l as [| x l IH]; intros H; [reflexivity |].
  cbn. destruct (g x) eqn:Eg; cbn.
  - destruct (f x); rewrite IH; auto; intros; apply H; auto; now right.
  - destruct (f x) eqn:Ef.
    + rewrite (H x) in Eg; [discriminate | now left | exact Ef].
    + apply IH. intros; apply H; auto; now right.
Qed.

Lemma filter_swap {A : Type} (f g : A -> bool) (l : list A) :
  filter f (filter g l) = filter g (filter f l).
Proof.
  induction l as [| x l IH]; [reflexivity |].
  cbn. destruct (f x) eqn:Ef, (g x) eqn:Eg; cbn; rewrite ?Ef, ?Eg, IH; reflexivity.
Qed.

Lemma nth_error_line_last (n : nat) (st : ReadyState) :
  nth_error (repeat CLOSED n ++ [st]) n = Some st.
Proof.
  rewrite nth_error_app2 by (rewrite repeat_length; lia).
  now rewrite repeat_length, Nat.sub_diag.
Qed.

Section OneLine.

Variable react : Behaviour.
Variable fuel : nat.

Lemma one_line_message (frame : Parse) (s : State) :
  one_line s -> one_line (onmessage react fuel frame s).
Proof.
  intros (n & st & Hso & Hw & Hf & Hn & Hst).
  destruct (onmessage_connection react fuel frame s)
    as (Hc & Hw' & _ & Hm & Hso' & _ & Hp).
  exists n, st. rewrite Hso', Hw', Hc, Hm, Hp.
  unfold timers_fresh in *.
  destruct (onmessage_timers react fuel frame s) as [(Ht & Hnt & _) | (_ & Ht & Hnt)];
    rewrite Ht, Hnt.
  - now repeat split.
  - destruct (fresh_snoc (timers s)
                (mkTimer (nextTimer s) (now s + 5000) ClearNotification)
                (nextTimer s) Hf eq_refl Hn) as [Hf' Hn'].
    now repeat split.
Qed.

Lemma one_line_step (s : State) (e : Event) :
  one_line s -> is_mount e = false -> one_line (step react fuel s e).
Proof.
  intros Hone He. unfold step. destruct (hung s) eqn:Hh; [exact Hone |].
  destruct e; try discriminate He; try exact Hone.
  - (* Unmount *)
    destruct Hone as (n & st & Hso & Hw & Hf & Hn & Hst).
    unfold unmount, ws_close, readyState. cbn. rewrite Hw, Hso, nth_error_line_last.
    exists n. destruct st; cbn.
    + exists CLOSING. rewrite ?Hso, update_line. now repeat split.
    + exists CLOSING. rewrite ?Hso, update_line. now repeat split.
    + exists CLOSING. now repeat split.
    + exists CLOSED. unfold pending_reconnects in *. cbn.
      destruct Hst as [Hc Hst]. repeat split; auto.
      destruct (mountedRef s); lia.
  - (* WsOpen *)
    unfold readyState. destruct (nth_error (sockets s) ws) as [st' |] eqn:E;
      [| exact Hone].
    destruct st'; try exact Hone.
    destruct Hone as (n & st & Hso & Hw & Hf & Hn & Hst).
    rewrite Hso in E. apply nth_error_line in E as [-> <-]; [| discriminate].
    exists n, OPEN. unfold onopen. cbn. rewrite Hso, update_line.
    now repeat split.
  - (* WsMessage *)
    destruct (readyState ws s) as [[| | |] |]; try exact Hone.
    now apply one_line_message.
  - (* WsError *)
    unfold onerror, ws_close, readyState.
    destruct (nth_error (sockets s) ws) as [st' |] eqn:E; [| exact Hone].
    destruct Hone as (n & st & Hso & Hw & Hf & Hn & Hst).
    destruct st'; cbn; rewrite ?E; try (now exists n, st);
      rewrite Hso in E; apply nth_error_line in E as [-> <-]; try discriminate;
      exists n, CLOSING; cbn; rewrite Hso, update_line; now repeat split.
  - (* WsClose *)
    unfold readyState.
    destruct (nth_error (sockets s) ws) as [st' |] eqn:E; [| exact Hone].
    destruct Hone as (n & st & Hso & Hw & Hf & Hn & Hst).
    assert (Hcase : st' = CLOSED \/ (ws = n /\ st' = st /\ pending_reconnects s = [])).
    { destruct st'; auto; right; rewrite Hso in E;
        apply nth_error_line in E as [-> <-]; try discriminate; tauto. }
    destruct Hcase as [-> | (-> & -> & Hp)]; [now exists n, st |].
    assert (Estep :
      match st with
      | CLOSED => s
      | _ => onclose (setSockets (update n CLOSED (sockets s)) s)
      end = onclose (setSockets (update n CLOSED (sockets s)) s) \/ st = CLOSED)
      by (destruct st; auto).
    destruct Estep as [-> | ->]; [| now exists n, CLOSED].
    exists n, CLOSED. unfold onclose, pending_reconnects, timers_fresh in *. cbn.
    rewrite Hso, update_line. destruct (mountedRef s) eqn:Hm; cbn; rewrite ?Hm.
    + destruct (fresh_snoc (timers s)
                  (mkTimer (nextTimer s) (now s + reconnect_delay (retriesRef s)) Reconnect)
                  (nextTimer s) Hf eq_refl Hn) as [Hf' Hn'].
      rewrite filter_app, Hp. now repeat split.
    + rewrite Hp. repeat split; auto; cbn; lia.
  - (* Elapse *)
    destruct (0 <=? dt); [| exact Hone].
    destruct Hone as (n & st & Hone). now exists n, st.
  - (* TimerFire *)
    destruct (find_timer id s) as [t |] eqn:Ef; [| exact Hone].
    destruct (due t <=? now s); [| exact Hone].
    destruct Hone as (n & st & Hso & Hw & Hf & Hn & Hst).
    apply find_some in Ef as [Hin Hid]. apply Nat.eqb_eq in Hid.
    set (keep := fun u : Timer => negb (Nat.eqb (timer_id u) id)).
    assert (Hf' : Forall (fun u => (timer_id u < nextTimer s)%nat) (filter keep (timers s)))
      by now apply Forall_filter_keep.
    assert (Hn' : NoDup (map timer_id (filter keep (timers s))))
      by now apply NoDup_ids_filter.
    unfold run_timer, remove_timer. fold keep.
    destruct (action t) eqn:Ea.
    + (* the notification is cleared *)
      assert (Hp : filter is_reconnect (filter keep (timers s)) = pending_reconnects s).
      { apply filter_filter_keep. intros u Hu Hr. unfold keep.
        destruct (Nat.eqb_spec (timer_id u) id) as [Eid |]; [| reflexivity].
        assert (u = t) by (apply (same_id_same_timer (timers s)); auto; congruence).
        subst u. unfold is_reconnect in Hr. now rewrite Ea in Hr. }
      exists n, st. unfold pending_reconnects, timers_fresh in *. cbn. rewrite Hp.
      now repeat split.
    + (* a reconnection *)
      assert (Hr : is_reconnect t = true) by (unfold is_reconnect; now rewrite Ea).
      assert (Hpin : In t (pending_reconnects s)) by (apply filter_In; now split).
      assert (Hcl : st = CLOSED).
      { destruct st;
          [destruct Hst as [_ Hst] | destruct Hst as [_ Hst] | | reflexivity];
          rewrite Hst in Hpin; contradiction. }
      subst st. destruct Hst as [Hc Hlen].
      assert (Hone1 : pending_reconnects s = [t]).
      { destruct (pending_reconnects s) as [| u [| v l]] eqn:Ep.
        - contradiction.
        - destruct Hpin as [-> | []]. reflexivity.
        - destruct (mountedRef s); cbn in Hlen; lia. }
      assert (Hp : filter is_reconnect (filter keep (timers s)) = []).
      { rewrite filter_swap. fold (pending_reconnects s). rewrite Hone1. cbn.
        unfold keep. now rewrite Hid, Nat.eqb_refl. }
      unfold connect, newWebSocket. cbn. destruct (mountedRef s) eqn:Hm; cbn.
      * exists (S n), CONNECTING. rewrite repeat_snoc.
        unfold pending_reconnects, timers_fresh.
        cbn [sockets wsRef timers nextTimer connected setWsRef setSockets setTimers].
        rewrite Hso, Hp, length_app, repeat_length.
        repeat split; auto. f_equal. cbn. lia.
      * exists n, CLOSED. unfold pending_reconnects, timers_fresh. cbn.
        rewrite Hp, Hm. repeat split; auto; cbn; lia.
Qed.

Lemma one_line_run (evs : list Event) (s : State) :
  one_line s -> forallb (fun e => negb (is_mount e)) evs = true ->
  one_line (run react fuel s evs).
Proof.
  revert s. induction evs as [| e evs IH]; intros s Hs Hev; [exact Hs |].
  cbn [forallb] in Hev. apply andb_true_iff in Hev as [He Hev].
  apply negb_true_iff in He. rewrite run_cons.
  apply IH; [now apply one_line_step | exact Hev].
Qed.

Lemma one_line_mounted : one_line (step react fuel init Mount).
Proof.
  exists 0%nat, CONNECTING. cbn. unfold timers_fresh. cbn.
  repeat split; constructor.
Qed.

End OneLine.

(** X10.  A client that is mounted once never has two connections.  Counting the
    sockets that have not reported their close and the reconnections that
    are scheduled, there is at most one; while the client is mounted there
    is exactly one, so it is always connected, connecting, closing or
    waiting to reconnect; and a socket that is not closed is the one
    [wsRef] holds. *)
Theorem one_connection_at_a_time
  (react : Behaviour) (fuel : nat) (evs : list Event) :
  forallb (fun e => negb (is_mount e)) evs = true ->
  let s := run react fuel init (Mount :: evs) in
  (open_ends s <= 1)%nat /\
  (mountedRef s = true -> open_ends s = 1%nat) /\
  (forall ws st, readyState ws s = Some st -> st <> CLOSED -> wsRef s = Some ws).
Proof.
  intros Hev s.
  assert (Hone : one_line s).
  { subst s. rewrite run_cons.
    apply one_line_run; [apply one_line_mounted | exact Hev]. }
  destruct Hone as (n & st & Hso & Hw & _ & _ & Hst).
  unfold open_ends. rewrite Hso, filter_line.
  assert (Hcount :
    match st with
    | CLOSED => if mountedRef s then length (pending_reconnects s) = 1%nat
                else (length (pending_reconnects s) <= 1)%nat
    | _ => length (pending_reconnects s) = 0%nat
    end).
  { destruct st; [destruct Hst as [_ Hst] | destruct Hst as [_ Hst] | |
                  destruct Hst as [_ Hst]]; rewrite ?Hst; auto. }
  clear Hst. split; [| split].
  - destruct st; cbn [not_closed length]; try lia. destruct (mountedRef s); lia.
  - intros Hm. rewrite Hm in Hcount.
    destruct st; cbn [not_closed length]; lia.
  - intros ws st' Hr Hne. unfold readyState in Hr. rewrite Hso in Hr.
    apply nth_error_line in Hr as [-> _]; [exact Hw | exact Hne].
Qed.

Lemma one_connection_at_a_time_witness :
  let s := run passive 0 init
             [Mount; WsOpen 0; WsError 0; WsClose 0; Elapse 1000; TimerFire 0;
              WsClose 1; Elapse 2000] in
  (open_ends s <= 1)%nat /\ open_ends s = 1%nat.
Proof.
  intros s.
  destruct (one_connection_at_a_time passive 0
              [WsOpen 0; WsError 0; WsClose 0; Elapse 1000; TimerFire 0;
               WsClose 1; Elapse 2000]) as (H1 & H2 & _); [reflexivity |].
  split; [exact H1 | apply H2; reflexivity].
Defined.

(** X11.  For a client that is mounted once the connected flag follows the
    current socket: it is set whenever a socket is open, and when it is set
    the current socket has completed its handshake and has not reported its
    close (it is open, or closing). *)
Theorem connected_flag_follows_socket
  (react : Behaviour) (fuel : nat) (evs : list Event) :
  forallb (fun e => negb (is_mount e)) evs = true ->
  let s := run react fuel init (Mount :: evs) in
  (forall ws, readyState ws s = Some OPEN -> connected s = true) /\
  (connected s = true ->
   exists ws, wsRef s = Some ws /\
     (readyState ws s = Some OPEN \/ readyState ws s = Some CLOSING)).
Proof.
  intros Hev s.
  assert (Hone : one_line s).
  { subst s. rewrite run_cons.
    apply one_line_run; [apply one_line_mounted | exact Hev]. }
  destruct Hone as (n & st & Hso & Hw & _ & _ & Hst).
  split.
  - intros ws Hr. unfold readyState in Hr. rewrite Hso in Hr.
    apply nth_error_line in Hr as [_ <-]; [tauto | discriminate].
  - intros Hc. exists n. split; [exact Hw |].
    unfold readyState. rewrite Hso, nth_error_line_last.
    destruct st; auto; destruct Hst as [Hst _]; congruence.
Qed.

Lemma connected_flag_follows_socket_witness :
  let s := run passive 0 init [Mount; WsOpen 0; WsError 0] in
  connected s = true /\
  exists ws, wsRef s = Some ws /\
    (readyState ws s = Some OPEN \/ readyState ws s = Some CLOSING).
Proof.
  intros s.
  destruct (connected_flag_follows_socket passive 0 [WsOpen 0; WsError 0])
    as (_ & H); [reflexivity |].
  split; [reflexivity | apply H; reflexivity].
Defined.

Lemma update_app_left {A : Type} (i : nat) (x : A) (l l' : list A) :
  (i < length l)%nat -> update i x (l ++ l') = update i x l ++ l'.
Proof.
  revert i. induction l as [| y l IH]; intros [| i] H; cbn in *; try lia;
    [reflexivity |].
  rewrite IH by lia. reflexivity.
Qed.

Lemma update_other {A : Type} (i j : nat) (x : A) (l : list A) :
  i <> j -> nth_error (update i x l) j = nth_error l j.
Proof.
  revert i j. induction l as [| y l IH]; intros [| i] [| j] H; cbn; try reflexivity;
    try contradiction.
  apply IH. lia.
Qed.

Lemma unmount_others (react : Behaviour) (fuel : nat) (s : State) (ws : nat) :
  hung s = false -> wsRef s <> Some ws ->
  nth_error (sockets (step react fuel s Unmount)) ws = nth_error (sockets s) ws.
Proof.
  intros Hh Hw. unfold step. rewrite Hh. unfold unmount, ws_close, readyState. cbn.
  destruct (wsRef s) as [w |]; [| reflexivity].
  destruct (nth_error (sockets s) w) as [[| | |] |]; cbn; try reflexivity;
    apply update_other; congruence.
Qed.

(** X12.  When the effect is run again on the same refs (cleanup, then the effect
    once more) before the socket closed by the cleanup has reported its
    close, that close finds the client mounted and schedules a reconnection,
    as if the new socket had dropped.  Once the timer has run the client
    holds two sockets that are connecting or open; [wsRef] is the newer, and
    a later cleanup closes that one only. *)
Theorem remount_doubles_connection
  (react : Behaviour) (fuel : nat) (s : State) (ws : nat) :
  connection_up s -> wsRef s = Some ws ->
  let s' := run react fuel s
              [Unmount; Mount; WsClose ws;
               Elapse (reconnect_delay (retriesRef s)); TimerFire (nextTimer s)] in
  let second := length (sockets s) in
  let third := S (length (sockets s)) in
  live second s' = true /\ live third s' = true /\ wsRef s' = Some third /\
  live second (step react fuel s' Unmount) = true /\
  live third (step react fuel s' Unmount) = false.
Proof.
  intros (Hh & Hm & Hf & ws0 & Hw & Hl) Hws.
  rewrite Hws in Hw. injection Hw as <-.
  pose proof (reconnect_delay_pos (retriesRef s)) as Hpos.
  destruct s as [c k w r m ls so ti nt nw dl h].
  unfold live, readyState, timers_fresh in *.
  cbn in Hh, Hm, Hf, Hl, Hws, Hpos. cbn [retriesRef nextTimer sockets]. subst h m w.
  destruct (nth_error so ws) as [st |] eqn:Eso; [| discriminate].
  assert (Lws : (ws < length so)%nat) by (apply nth_error_Some; congruence).
  set (t := mkTimer nt (nw + reconnect_delay r) Reconnect).
  assert (E3 :
    run react fuel (mkState c k (Some ws) r true ls so ti nt nw dl false)
      [Unmount; Mount; WsClose ws] =
    mkState false k (Some (length so)) (S r) true ls
      (update ws CLOSED so ++ [CONNECTING]) (ti ++ [t]) (S nt) nw dl false).
  { assert (E1 :
      step react fuel (mkState c k (Some ws) r true ls so ti nt nw dl false) Unmount =
      mkState c k (Some ws) r false ls (update ws CLOSING so) ti nt nw dl false).
    { unfold step, unmount, ws_close, readyState. cbn. rewrite Eso.
      destruct st; try discriminate; reflexivity. }
    assert (E2 :
      step react fuel
        (mkState c k (Some ws) r false ls (update ws CLOSING so) ti nt nw dl false) Mount =
      mkState c k (Some (length so)) r true ls (update ws CLOSING so ++ [CONNECTING])
        ti nt nw dl false).
    { unfold step, mount, connect, newWebSocket. cbn. now rewrite length_update. }
    cbn [run fold_left]. rewrite E1, E2.
    unfold step, readyState. cbn.
    rewrite nth_error_app1 by (rewrite length_update; exact Lws).
    rewrite (nth_error_update ws CLOSING st so Eso).
    unfold onclose. cbn.
    rewrite update_app_left by (rewrite length_update; exact Lws).
    now rewrite update_update. }
  change [Unmount; Mount; WsClose ws; Elapse (reconnect_delay r); TimerFire nt]
    with ([Unmount; Mount; WsClose ws] ++ [Elapse (reconnect_delay r); TimerFire nt]).
  rewrite run_app, E3. clear E3.
  match goal with
  | |- context [run react fuel ?a ?b] => set (s' := run react fuel a b)
  end.
  assert (Es' : s' =
    mkState false k (Some (S (length so))) (S r) true ls
      ((update ws CLOSED so ++ [CONNECTING]) ++ [CONNECTING]) ti (S nt)
      (nw + reconnect_delay r) dl false).
  { subst s'. cbn [run fold_left]. unfold step at 2. cbn [hung].
    destruct (0 <=? reconnect_delay r) eqn:E; [| apply Z.leb_gt in E; lia].
    unfold step, find_timer, setNow. cbn.
    rewrite (find_fresh_timer nt t ti Hf eq_refl). cbn. rewrite Z.leb_refl.
    unfold remove_timer, run_timer, connect, newWebSocket, setTimers, setSockets,
      setWsRef. cbn.
    rewrite (filter_fresh_timer nt t ti Hf eq_refl).
    rewrite length_app, length_update. cbn. do 2 f_equal. lia. }
  rewrite Es'. clear Es' s'. cbv zeta. cbn [sockets wsRef].
  assert (L2 : nth_error ((update ws CLOSED so ++ [CONNECTING]) ++ [CONNECTING])
                 (length so) = Some CONNECTING).
  { rewrite nth_error_app1 by (rewrite length_app, length_update; cbn; lia).
    rewrite nth_error_app2 by (rewrite length_update; lia).
    now rewrite length_update, Nat.sub_diag. }
  assert (L3 : nth_error ((update ws CLOSED so ++ [CONNECTING]) ++ [CONNECTING])
                 (S (length so)) = Some CONNECTING).
  { assert (Len : length (update ws CLOSED so ++ [CONNECTING]) = S (length so)).
    { rewrite length_app, length_update. cbn [length]. lia. }
    rewrite <- Len. rewrite nth_error_app2 by lia.
    now rewrite Nat.sub_diag. }
  rewrite L2, L3. split; [reflexivity |]. split; [reflexivity |].
  split; [reflexivity |].
  match goal with
  | |- context [step react fuel ?a Unmount] => set (s1 := a)
  end.
  split.
  - rewrite (unmount_others react fuel s1 (length so)); [| reflexivity |].
    + subst s1. cbn [sockets]. now rewrite L2.
    + subst s1. cbn [wsRef]. intros [= E]. lia.
  - destruct (unmount_effect react fuel s1 eq_refl) as (_ & _ & _ & H).
    specialize (H (S (length so)) eq_refl). exact H.
Qed.

Lemma remount_doubles_connection_witness :
  let s := run passive 0 init [Mount; WsOpen 0] in
  let s' := run passive 0 s [Unmount; Mount; WsClose 0; Elapse 1000; TimerFire 0] in
  live 1 s' = true /\ live 2 s' = true /\ wsRef s' = Some 2%nat /\
  live 1 (step passive 0 s' Unmount) = true /\
  live 2 (step passive 0 s' Unmount) = false.
Proof.
  intros s s'.
  apply (remount_doubles_connection passive 0 s 0).
  - unfold connection_up, timers_fresh. cbn.
    split; [reflexivity |]. split; [reflexivity |]. split; [constructor |].
    exists 0%nat. split; reflexivity.
  - reflexivity.
Defined.

(** * Properties of the video feed *)

Module FeedFacts.

Import VideoFeed.

Lemma subseq_nil (b : list string) : subseq [] b.
Proof. induction b as [| y b IH]; cbn; auto. Qed.

Lemma subseq_snoc (x : string) (a b : list string) :
  subseq a b -> subseq (a ++ [x]) (b ++ [x]).
Proof.
  revert a. induction b as [| y b IH]; intros a H; cbn in *.
  - subst a. cbn. right. split; reflexivity.
  - destruct H as [H | H]; [left; now apply IH |].
    destruct a as [| x0 a]; cbn.
    + left. apply (IH []). apply subseq_nil.
    + right. destruct H as [-> H]. split; [reflexivity | now apply IH].
Qed.

Lemma subseq_longer (x : string) (a b : list string) :
  subseq a b -> subseq a (b ++ [x]).
Proof.
  revert a. induction b as [| y b IH]; intros a H; cbn in *.
  - subst a. now left.
  - destruct H as [H | H]; [left; now apply IH |].
    destruct a as [| x0 a]; [now right |].
    right. destruct H as [-> H]. split; [reflexivity | now apply IH].
Qed.

Lemma subseq_front (a c b : list string) : subseq (a ++ c) b -> subseq a b.
Proof.
  revert a. induction b as [| y b IH]; intros a H; cbn in *.
  - now apply app_eq_nil in H as [-> _].
  - destruct H as [H | H]; [left; now apply IH |].
    destruct a as [| x0 a]; [now right |].
    cbn in H. right. destruct H as [-> H]. split; [reflexivity | now apply IH].
Qed.

Lemma subseq_drop (x : string) (a c b : list string) :
  subseq (a ++ x :: c) b -> subseq (a ++ c) b.
Proof.
  revert a. induction b as [| y b IH]; intros a H; cbn in *.
  - symmetry in H. now apply app_cons_not_nil in H.
  - destruct H as [H | H]; [left; now apply IH |].
    destruct a as [| x0 a]; cbn in *.
    + left. tauto.
    + right. destruct H as [-> H]. split; [reflexivity | now apply IH].
Qed.

Lemma newest_snoc (x : string) (l : list string) : newest (l ++ [x]) = Some x.
Proof. unfold newest. now rewrite rev_app_distr. Qed.

Lemma loading_one (f : Feed) (i : nat) (src : string) :
  one_decode f -> nth_error (loading f) i = Some src ->
  i = 0%nat /\ loading f = [src] /\ rendering f = true.
Proof.
  intros [[Hl _] | (s0 & Hl & Hr)] H; rewrite Hl in H.
  - destruct i; discriminate.
  - destruct i as [| [| i]]; cbn in H; try discriminate.
    injection H as ->. auto.
Qed.

Lemma one_decode_step (f : Feed) (e : Event) :
  one_decode f -> one_decode (step f e).
Proof.
  intros H. destruct e as [x | i | i |]; cbn.
  - destruct (subscribed f); [| exact H].
    unfold onframe, render. cbn.
    destruct (String.eqb x ""); cbn; [exact H |].
    destruct H as [[Hl Hr] | (src & Hl & Hr)]; rewrite Hr; cbn.
    + right. exists x. cbn. rewrite Hl. auto.
    + right. exists src. cbn. auto.
  - destruct (nth_error (loading f) i) as [src |] eqn:E; [| exact H].
    destruct (loading_one f i src H E) as (-> & Hl & Hr). rewrite Hl. cbn.
    unfold onload, render. cbn.
    destruct (activated f); cbn; (destruct (latest f) as [g |]; cbn;
      [destruct (String.eqb g ""); cbn |]); unfold one_decode; cbn; eauto.
  - destruct (nth_error (loading f) i) as [src |] eqn:E; [| exact H].
    destruct (loading_one f i src H E) as (-> & Hl & Hr). rewrite Hl. cbn.
    left. auto.
  - exact H.
Qed.

Lemma one_decode_run (evs : list Event) (f : Feed) :
  one_decode f -> one_decode (run f evs).
Proof.
  revert f. induction evs as [| e evs IH]; intros f H; [exact H |].
  apply IH, one_decode_step, H.
Qed.

Lemma one_decode_start : one_decode start.
Proof. left. split; reflexivity. Qed.

(** A step puts a published frame at the end of the pipeline, moves frames
    along it or drops one; it never reorders. *)
Lemma pipeline_step (f : Feed) (e : Event) (rs : list string) :
  one_decode f -> subseq (pipeline f) rs ->
  subseq (pipeline (step f e)) (rs ++ received [e]).
Proof.
  intros H Hs. destruct e as [x | i | i |]; cbn [received]; rewrite ?app_nil_r.
  - cbn. destruct (subscribed f); [| now apply subseq_longer].
    assert (E : pipeline (onframe x f) = (canvas f ++ loading f) ++ [x]).
    { unfold onframe, render, pipeline. cbn.
      destruct (negb (String.eqb x "") && negb (rendering f)) eqn:Eb.
      - apply andb_true_iff in Eb as [E1 E2]. rewrite E1.
        apply negb_true_iff in E2. rewrite E2. cbn.
        now rewrite app_nil_r, app_assoc.
      - assert (E : negb (negb (String.eqb x "")) || rendering f = true).
        { destruct (String.eqb x ""), (rendering f); auto. }
        rewrite E. cbn. now rewrite app_assoc. }
    rewrite E. apply subseq_snoc.
    unfold pipeline in Hs. rewrite app_assoc in Hs. now apply subseq_front in Hs.
  - cbn. destruct (nth_error (loading f) i) as [src |] eqn:E; [| exact Hs].
    destruct (loading_one f i src H E) as (-> & Hl & Hr).
    assert (Ep : pipeline (onload src (setLoading (remove_nth 0 (loading f)) f)) =
                 pipeline f).
    { unfold pipeline at 2. rewrite Hl. unfold onload, render, pipeline. cbn.
      destruct (activated f); cbn; (destruct (latest f) as [g |]; cbn;
        [destruct (String.eqb g ""); cbn |]); rewrite <- ?app_assoc; reflexivity. }
    now rewrite Ep.
  - cbn. destruct (nth_error (loading f) i) as [src |] eqn:E; [| exact Hs].
    destruct (loading_one f i src H E) as (-> & Hl & Hr).
    unfold pipeline in *. rewrite Hl in *. cbn in *.
    now apply subseq_drop in Hs.
  - exact Hs.
Qed.

Lemma received_cons (e : Event) (evs : list Event) :
  received (e :: evs) = received [e] ++ received evs.
Proof. destruct e; reflexivity. Qed.

Lemma pipeline_run (evs : list Event) (f : Feed) (rs : list string) :
  one_decode f -> subseq (pipeline f) rs ->
  subseq (pipeline (run f evs)) (rs ++ received evs).
Proof.
  revert f rs. induction evs as [| e evs IH]; intros f rs H Hs.
  - cbn. now rewrite app_nil_r.
  - rewrite received_cons, app_assoc.
    apply IH; [now apply one_decode_step | now apply pipeline_step].
Qed.

Lemma newest_step (f : Feed) (e : Event) (rs : list string) :
  smooth e = true -> one_decode f -> nothing_waits f ->
  newest (pipeline f) = newest rs ->
  nothing_waits (step f e) /\
  newest (pipeline (step f e)) = newest (rs ++ received [e]).
Proof.
  intros He H (Hsub & Hidle & Hne) Hn.
  destruct e as [x | i | i |]; try discriminate He; cbn [received];
    rewrite ?app_nil_r.
  - cbn in He. apply negb_true_iff in He. cbn. rewrite Hsub.
    unfold onframe, render, pipeline, nothing_waits. cbn. rewrite He. cbn.
    destruct (rendering f) eqn:Hr; cbn.
    + rewrite !app_assoc, !newest_snoc. repeat split; auto; try discriminate.
      intros [= ->]. discriminate.
    + rewrite app_nil_r, !app_assoc, !newest_snoc. repeat split; auto; discriminate.
  - cbn. destruct (nth_error (loading f) i) as [src |] eqn:E; [| now repeat split].
    destruct (loading_one f i src H E) as (-> & Hl & Hr).
    unfold pipeline in Hn. rewrite Hl in Hn. rewrite <- Hn.
    unfold onload, render, pipeline, nothing_waits. cbn. rewrite Hl.
    destruct (latest f) as [g |] eqn:Eg.
    + destruct (String.eqb_spec g "") as [-> | Hg]; [now destruct Hne |].
      apply String.eqb_neq in Hg.
      destruct (activated f); cbn; rewrite Hg; cbn; rewrite <- ?app_assoc;
        repeat split; auto; discriminate.
    + destruct (activated f); cbn; rewrite ?app_nil_r; repeat split; auto;
        discriminate.
Qed.

Lemma newest_run (evs : list Event) (f : Feed) (rs : list string) :
  forallb smooth evs = true -> one_decode f -> nothing_waits f ->
  newest (pipeline f) = newest rs ->
  nothing_waits (run f evs) /\
  newest (pipeline (run f evs)) = newest (rs ++ received evs).
Proof.
  revert f rs. induction evs as [| e evs IH]; intros f rs Hev H Hw Hn.
  - cbn. now rewrite app_nil_r.
  - cbn [forallb] in Hev. apply andb_true_iff in Hev as [He Hev].
    destruct (newest_step f e rs He H Hw Hn) as [Hw' Hn'].
    rewrite received_cons, app_assoc.
    apply IH; auto. now apply one_decode_step.
Qed.

End FeedFacts.

(** X13.  The video feed decodes one image at a time: whatever frames are
    published and however the decodings end, at most one image is being
    decoded, and the [rendering] flag is set exactly when one is. *)
Theorem feed_decodes_one_at_a_time (evs : list VideoFeed.Event) :
  let f := VideoFeed.run VideoFeed.start evs in
  (length (VideoFeed.loading f) <= 1)%nat /\
  (VideoFeed.rendering f = true <-> VideoFeed.loading f <> []).
Proof.
  intros f.
  assert (H : VideoFeed.one_decode f)
    by apply FeedFacts.one_decode_run, FeedFacts.one_decode_start.
  destruct H as [[Hl Hr] | (src & Hl & Hr)]; rewrite Hl, Hr; cbn.
  - split; [lia |]. split; [discriminate | congruence].
  - split; [lia |]. split; [discriminate | reflexivity].
Qed.

(** X14.  The canvas shows the frames in the order they were published: the
    frames drawn are the frames published with some left out, never a frame
    that was not published, never two in the wrong order. *)
Theorem feed_draws_in_order (evs : list VideoFeed.Event) :
  VideoFeed.subseq (VideoFeed.canvas (VideoFeed.run VideoFeed.start evs))
    (VideoFeed.received evs).
Proof.
  pose proof (FeedFacts.pipeline_run evs VideoFeed.start []
                FeedFacts.one_decode_start eq_refl) as H.
  cbn [app] in H. unfold VideoFeed.pipeline in H.
  now apply FeedFacts.subseq_front in H.
Qed.

(** X15.  The newest frame is not lost, as long as every frame published is a
    string that is not empty, every decoding succeeds (there is no
    [img.onerror]) and the effect is not cleaned up: then whenever no image
    is being decoded, no frame waits and the last frame drawn is the last
    frame published. *)
Theorem feed_shows_newest_frame (evs : list VideoFeed.Event) :
  forallb VideoFeed.smooth evs = true ->
  let f := VideoFeed.run VideoFeed.start evs in
  VideoFeed.rendering f = false ->
  VideoFeed.latest f = None /\ VideoFeed.loading f = [] /\
  VideoFeed.newest (VideoFeed.canvas f) = VideoFeed.newest (VideoFeed.received evs).
Proof.
  intros Hev f Hidle.
  assert (Hw0 : VideoFeed.nothing_waits VideoFeed.start).
  { repeat split; cbn; discriminate. }
  destruct (FeedFacts.newest_run evs VideoFeed.start [] Hev
              FeedFacts.one_decode_start Hw0 eq_refl) as [(_ & Hw & _) Hn].
  fold f in Hw, Hn. cbn [app] in Hn.
  assert (H : VideoFeed.one_decode f)
    by apply FeedFacts.one_decode_run, FeedFacts.one_decode_start.
  specialize (Hw Hidle).
  destruct H as [[Hl _] | (src & _ & Hr)]; [| congruence].
  unfold VideoFeed.pipeline in Hn. rewrite Hl, Hw in Hn. cbn [app] in Hn.
  rewrite app_nil_r in Hn. auto.
Qed.

Lemma feed_shows_newest_frame_witness :
  let evs := [VideoFeed.Frame "a"; VideoFeed.Frame "b"; VideoFeed.Frame "c";
              VideoFeed.Loaded 0; VideoFeed.Loaded 0] in
  VideoFeed.canvas (VideoFeed.run VideoFeed.start evs) = ["a"; "c"] /\
  VideoFeed.newest (VideoFeed.canvas (VideoFeed.run VideoFeed.start evs)) =
    VideoFeed.newest (VideoFeed.received evs).
Proof.
  intros evs. split; [reflexivity |].
  apply (feed_shows_newest_frame evs); reflexivity.
Defined.

(** * Properties of the dashboard page *)

Lemma detection_effect_last_n (summary : Value) (time : Z) (t : Value)
  (history : list Dashboard.Sample) :
  Dashboard.truthy summary = true -> get summary "total" = Some t ->
  Dashboard.detection_effect summary time history =
  last_n 60 (history ++ [Dashboard.mkSample t time]).
Proof.
  intros Ht Hg. unfold Dashboard.detection_effect. rewrite Ht, Hg.
  change (- 59) with (- Z.of_nat 59). rewrite slice_neg by lia.
  now rewrite last_n_app_short by (cbn; lia).
Qed.

Lemma detection_fold (runs : list (Value * Z)) (h0 : list Dashboard.Sample) :
  fold_left (fun h r => Dashboard.detection_effect (fst r) (snd r) h) runs h0 =
  match Dashboard.samples_of runs with
  | [] => h0
  | _ => last_n 60 (h0 ++ Dashboard.samples_of runs)
  end.
Proof.
  revert h0. induction runs as [| [summary time] runs IH]; intros h0; [reflexivity |].
  cbn [fold_left Dashboard.samples_of fst snd]. rewrite IH.
  destruct (Dashboard.truthy summary) eqn:Ht.
  - destruct (get summary "total") as [t |] eqn:Hg.
    + rewrite (detection_effect_last_n summary time t h0 Ht Hg).
      destruct (Dashboard.samples_of runs) as [| x l]; [reflexivity |].
      now rewrite last_n_absorb, <- app_assoc.
    + unfold Dashboard.detection_effect. now rewrite Ht, Hg.
  - unfold Dashboard.detection_effect. now rewrite Ht.
Qed.

(** X16.  The history of detection totals holds the last 60 samples: after any
    runs of the effect that added a sample it is the last 60 of the samples
    it had and those added, in order, so it never grows past 60; runs
    without a summary leave it as it is. *)
Theorem detection_history_keeps_last_60
  (runs : list (Value * Z)) (h0 : list Dashboard.Sample) :
  let h := fold_left (fun h r => Dashboard.detection_effect (fst r) (snd r) h)
             runs h0 in
  (Dashboard.samples_of runs = [] -> h = h0) /\
  (Dashboard.samples_of runs <> [] ->
   h = last_n 60 (h0 ++ Dashboard.samples_of runs) /\ (length h <= 60)%nat).
Proof.
  intros h. subst h. rewrite detection_fold. split.
  - intros E. now rewrite E.
  - intros Hne. destruct (Dashboard.samples_of runs) as [| x l] eqn:E;
      [contradiction |].
    split; [reflexivity |]. rewrite last_n_length. lia.
Qed.

Lemma detection_history_keeps_last_60_witness :
  let runs := map (fun n => (JObj [("total", JNum (Z.of_nat n))], Z.of_nat n))
                (seq 1 70) ++ [(JNull, 71)] in
  let h := fold_left (fun h r => Dashboard.detection_effect (fst r) (snd r) h)
             runs [] in
  h = last_n 60 ([] ++ Dashboard.samples_of runs) /\ (length h <= 60)%nat.
Proof.
  intros runs h.
  apply (detection_history_keeps_last_60 runs []).
  vm_compute. discriminate.
Defined.

(** X17.  The toast effect meets the bounded stream.  The effect shows a toast
    only when the decisions are more than it has counted, and its count
    never goes down; the stream of decisions never holds more than 50.  So
    once 50 decisions have been counted no later decision shows a toast: a
    run of the effect only cancels the pending timer and leaves the toast
    that is on screen.  The same holds after a reset while the decisions
    are not more than the count. *)
Theorem toast_stops_at_capacity
  (react : Behaviour) (fuel : nat) (evs : list Event)
  (text_of : Value -> string) (t : Dashboard.Toast) :
  let ds := decisions (sinks (run react fuel init evs)) in
  ((50 <= Dashboard.lastDecisionCount t)%nat ->
   Dashboard.decision_effect text_of ds t = Some (Dashboard.cleanup t)) /\
  ((length ds <= Dashboard.lastDecisionCount t)%nat ->
   Dashboard.decision_effect text_of ds t = Some (Dashboard.cleanup t)) /\
  (forall t', Dashboard.decision_effect text_of ds t = Some t' ->
     (Dashboard.lastDecisionCount t <= Dashboard.lastDecisionCount t' <= 
      Nat.max (Dashboard.lastDecisionCount t) 50)%nat).
Proof.
  intros ds.
  assert (Hcap : (length ds <= 50)%nat).
  { assert (H : forall s, Z.of_nat (length (contents DecisionStream s)) <= 50 ->
              Z.of_nat (length (contents DecisionStream (run react fuel s evs))) <= 50).
    { induction evs as [| e evs' IH]; intros s Hs; [exact Hs |].
      rewrite run_cons. apply IH, (step_within_capacity react fuel DecisionStream), Hs. }
    specialize (H init). cbn in H. subst ds. lia. }
  assert (Hguard : (length ds <= Dashboard.lastDecisionCount t)%nat ->
            Dashboard.decision_effect text_of ds t = Some (Dashboard.cleanup t)).
  { intros Hle. unfold Dashboard.decision_effect.
    cbn [Dashboard.cleanup Dashboard.lastDecisionCount].
    destruct (Nat.ltb_spec (Dashboard.lastDecisionCount t) (length ds));
      [lia | reflexivity]. }
  split; [intros H; apply Hguard; lia |]. split; [exact Hguard |].
  intros t' H. unfold Dashboard.decision_effect in H.
  cbn [Dashboard.cleanup Dashboard.lastDecisionCount] in H.
  destruct (Nat.ltb_spec (Dashboard.lastDecisionCount t) (length ds)).
  - destruct (get (last ds JUndefined) "action"); [| discriminate].
    injection H as <-. cbn. lia.
  - injection H as <-. cbn. lia.
Qed.

Lemma toast_stops_at_capacity_witness :
  let evs := [Mount; WsOpen 0] ++
             map (fun n => WsMessage 0
                    (envelope "autopilot_decision"
                       (JObj [("action", JStr "lower resolution")])))
               (seq 1 51) in
  let t := Dashboard.mkToast (Some "toast 50") 50 true in
  Dashboard.decision_effect (fun _ => "") (decisions (sinks (run passive 0 init evs))) t =
  Some (Dashboard.mkToast (Some "toast 50") 50 false).
Proof.
  intros evs t.
  destruct (toast_stops_at_capacity passive 0 evs (fun _ => ""%string) t) as [H _].
  apply H. cbn. lia.
Defined.
